(** * Autonomous news hub: classifier, fetchers, scorer and aggregator

    A shallow embedding of the collector script: the keyword classifier
    ([detect_company], [calculate_importance], [extract_tags]),
    [generate_id], the normalisation loops of the two fetchers
    ([fetch_newsapi], [fetch_gnews]), the scorer ([calc_score]) and the
    aggregation pipeline of [main] (deduplication by url, scoring,
    descending sort, truncation, snapshot).

    Modelling conventions.
    - A Python [str] is a [string]; [kw in s] is [str_in kw s].
    - [str.lower], [datetime.fromisoformat], the clock and the HTTP
      requests are functions of the interpreter and of the outside world:
      they are section variables, so every theorem holds for whatever
      they compute.  Concrete instances ([ascii_lower], the parsers
      [iso_parse] and [fromisoformat_py], [example_get]) are given for
      running examples.
    - [hashlib.md5] is the MD5 function of RFC 1321, checked here on its
      test vectors.
    - A provider response is the decoded JSON document, its fields typed;
      a request or decoding that raises is [None].
    - A Python [float] is a real number of [R]: neither the rounding of
      each binary64 operation nor the overflow of the conversion of a huge
      [int] is modelled, and [x ** 0.5] is [sqrt x].  [round] is [py_round],
      rounding to the nearest integer with ties to the even one.
    - An item is a record whose optional fields are the keys read with
      [dict.get(key, default)]. *)

From Stdlib Require Import Reals Lra Ascii String.
From stdpp Require Import gmap strings list sorting.


(** ** Strings *)

(** [s.startswith(p)] *)
Fixpoint startswith (p s : string) : bool :=
  match p, s with
  | EmptyString, _ => true
  | String a p', String b s' => if decide (a = b) then startswith p' s' else false
  | String _ _, EmptyString => false
  end.

(** [kw in s] on strings: [kw] occurs in [s] as a contiguous substring. *)
Fixpoint str_in (kw s : string) : bool :=
  startswith kw s ||
  match s with
  | EmptyString => false
  | String _ s' => str_in kw s'
  end.

(** The mathematical notion [str_in] decides. *)
Definition Substring (kw s : string) : Prop :=
  ∃ pre post, s = pre +:+ kw +:+ post.

(** [s[n:]] *)
Fixpoint str_drop (n : nat) (s : string) : string :=
  match n, s with
  | O, _ => s
  | S n', String _ s' => str_drop n' s'
  | S _, EmptyString => EmptyString
  end.

(** [s.replace(c, r)] for a one-character pattern [c]. *)
Fixpoint str_replace_char (c : ascii) (r : string) (s : string) : string :=
  match s with
  | EmptyString => EmptyString
  | String a s' =>
      if decide (a = c) then r +:+ str_replace_char c r s'
      else String a (str_replace_char c r s')
  end.

(** [any(kw in text for kw in kws)] *)
Definition any_in (kws : list string) (text : string) : bool :=
  existsb (λ kw, str_in kw text) kws.

(** Some keyword of [kws] is a substring of [text]. *)
Definition AnyIn (kws : list string) (text : string) : Prop :=
  ∃ kw, kw ∈ kws ∧ Substring kw text.

(** Lower-casing of the ASCII letters, the instance of [str.lower] used in
    the examples. *)
Definition ascii_lower_char (a : ascii) : ascii :=
  let n := nat_of_ascii a in
  if (65 <=? n)%nat && (n <=? 90)%nat then ascii_of_nat (n + 32) else a.

Fixpoint ascii_lower (s : string) : string :=
  match s with
  | EmptyString => EmptyString
  | String a s' => String (ascii_lower_char a) (ascii_lower s')
  end.

(** ** Classifier *)

(** The [COMPANIES] table; a Python dict iterates in insertion order, so the
    table is the list of its (key, value) pairs as declared. *)
Definition COMPANIES : list (string * list string) :=
  [ ("tesla", ["tesla"; "fsd"; "autopilot"; "elon musk"]);
    ("waymo", ["waymo"]);
    ("uber", ["uber autonomous"]);
    ("zoox", ["zoox"]);
    ("cruise", ["cruise"; "gm cruise"]);
    ("aurora", ["aurora innovation"]);
    ("baidu", ["baidu apollo"; "apollo go"]);
    ("pony", ["pony.ai"]);
    ("weride", ["weride"]);
    ("toyota", ["toyota autonomous"; "woven city"]);
    ("honda", ["honda autonomous"]);
    ("nissan", ["nissan propilot"]);
    ("tier4", ["tier iv"; "autoware"]) ].

(** The tag patterns of [extract_tags], in declaration order. *)
Definition patterns : list (string * list string) :=
  [ ("FSD", ["fsd"]);
    ("Level4", ["level 4"]);
    ("Commercial", ["commercial"; "launch"]);
    ("Partnership", ["partnership"; "deal"]);
    ("China", ["china"; "chinese"]);
    ("Japan", ["japan"]);
    ("USA", ["us"; "america"; "california"]) ].

Definition high_keywords : list string :=
  ["launch"; "announce"; "official"; "first"; "approve"].

Definition medium_keywords : list string :=
  ["update"; "plan"; "test"; "expand"].

(** The loop [for company_id, keywords in table: if any(...): return
    company_id], falling through to ["other"]. *)
Fixpoint detect_company_loop (text_lower : string)
    (table : list (string * list string)) : string :=
  match table with
  | [] => "other"
  | (company_id, keywords) :: rest =>
      if any_in keywords text_lower then company_id
      else detect_company_loop text_lower rest
  end.

(** The loop [for tag, kws in table: if any(...): tags.append(tag)]. *)
Fixpoint extract_tags_loop (title_lower : string)
    (table : list (string * list string)) : list string :=
  match table with
  | [] => []
  | (tag, kws) :: rest =>
      if any_in kws title_lower then tag :: extract_tags_loop title_lower rest
      else extract_tags_loop title_lower rest
  end.

(** The entries of [table] one of whose keywords occurs in [text]. *)
Definition matching (text : string) (table : list (string * list string))
    : list (string * list string) :=
  filter (λ e, any_in e.2 text = true) table.

Section Classifier.
(** [str.lower] *)
Variable lower : string → string.

Definition detect_company (text : string) : string :=
  let text_lower := lower text in
  detect_company_loop text_lower COMPANIES.

Definition calculate_importance (title desc : string) : string :=
  let text := lower (title +:+ " " +:+ desc) in
  if any_in high_keywords text then "high"
  else if any_in medium_keywords text then "medium"
  else "low".

Definition extract_tags (title : string) : list string :=
  let title_lower := lower title in
  take 5 (extract_tags_loop title_lower patterns).
End Classifier.

(** ** Items and snapshots *)

(** The [engagement] dict of an item; every key is read with [.get(key, 0)]. *)
Record engagement := Engagement {
  likes : option Z;
  comments : option Z;
  shares : option Z
}.

(** A news item, the dict built by the fetchers.  [url] is read with
    [item["url"]]; the fields behind an [option] are read with
    [item.get(key, default)] and may be absent. *)
Record item := Item {
  id : string;
  title : string;
  summary : string;
  source : option string;
  sourceDetail : string;
  company : string;
  url : string;
  publishedAt : option string;
  item_engagement : option engagement;
  importance : option string;
  tags : list string;
  priorityScore : option Z
}.

(** [item["priorityScore"] = score] *)
Definition set_priorityScore (score : Z) (it : item) : item :=
  {| id := id it; title := title it; summary := summary it;
     source := source it; sourceDetail := sourceDetail it;
     company := company it; url := url it; publishedAt := publishedAt it;
     item_engagement := item_engagement it; importance := importance it;
     tags := tags it; priorityScore := Some score |}.

(** The output document written to [news-data.json]. *)
Record snapshot := Snapshot {
  lastUpdated : Z;
  totalCount : nat;
  news : list item
}.

(** ** Scorer *)

(** A [datetime] value: offset-naive (wall-clock microseconds) or
    offset-aware (microseconds since the epoch, in UTC). *)
Inductive datetime :=
  | Naive (wall_us : Z)
  | Aware (utc_us : Z).

(** [aware_now - d], a [timedelta] in microseconds; subtracting a naive
    value from an aware one raises [TypeError]. *)
Definition datetime_sub (now : Z) (d : datetime) : option Z :=
  match d with
  | Aware t => Some (now - t)%Z
  | Naive _ => None
  end.

(** [timedelta.total_seconds()] *)
Definition total_seconds (delta_us : Z) : R := IZR delta_us / 1000000.

(** [round(x)]: the nearest integer, a tie going to the even neighbour. *)
Definition py_round (x : R) : Z :=
  let n := Int_part x in
  let r := frac_part x in
  if Rlt_dec r (1 / 2) then n
  else if Rlt_dec (1 / 2) r then (n + 1)%Z
  else if Z.even n then n else (n + 1)%Z.

Definition src_weights : gmap string R :=
  {[ "official" := 1.5%R; "news" := 1%R; "x" := 0.8%R; "reddit" := 0.7%R ]}.

Definition imp_bonus : gmap string Z :=
  {[ "high" := 20%Z; "medium" := 10%Z; "low" := 0%Z ]}.

(** The string handed to [fromisoformat]: ["Z"] replaced by ["+00:00"], and
    ["+00:00"] appended when no sign occurs after the tenth character. *)
Definition pub_string (it : item) : string :=
  let pub := str_replace_char "Z" "+00:00" (default "" (publishedAt it)) in
  if negb (str_in "+" (str_drop 10 pub)) && negb (str_in "-" (str_drop 10 pub))
  then pub +:+ "+00:00"
  else pub.

(** [total = likes + comments * 3 + shares * 2] *)
Definition eng_total (it : item) : Z :=
  let eng := default (Engagement None None None) (item_engagement it) in
  (default 0 (likes eng) + default 0 (comments eng) * 3
   + default 0 (shares eng) * 2)%Z.

(** [min(100, (total ** 0.5) * 2) if total > 0 else 10] *)
Definition eng_score (it : item) : R :=
  let total := eng_total it in
  if decide (total > 0)%Z then Rmin 100 (sqrt (IZR total) * 2) else 10%R.

(** [src_weights.get(item.get("source", "news"), 1.0) * 30] *)
Definition src_score (it : item) : R :=
  (default 1 (src_weights !! default "news" (source it)) * 30)%R.

(** [imp_bonus.get(item.get("importance", "low"), 0)] *)
Definition bonus (it : item) : Z :=
  default 0%Z (imp_bonus !! default "low" (importance it)).

Section Scorer.
(** [datetime.fromisoformat]; [None] when it raises [ValueError]. *)
Variable fromisoformat : string → option datetime.

(** The body of the [try] up to [hours]; [None] when an exception is
    raised, [now] being the reading of [datetime.now(timezone.utc)]. *)
Definition try_hours (now : Z) (it : item) : option R :=
  d ← fromisoformat (pub_string it);
  delta ← datetime_sub now d;
  Some (total_seconds delta / 3600)%R.

(** [max(0, 100 - hours * 4)], or 50 from the [except] branch. *)
Definition time_score (now : Z) (it : item) : R :=
  match try_hours now it with
  | Some hours => Rmax 0 (100 - hours * 4)
  | None => 50%R
  end.

Definition calc_score (now : Z) (it : item) : Z :=
  py_round (time_score now it * 0.3 + eng_score it * 0.35
            + src_score it * 0.2 + IZR (bonus it) * 0.15)%R.
End Scorer.

(** ** Aggregator *)

(** The deduplication loop of [main]: [seen] is the set of urls met so far,
    [unique] the items kept so far, in order. *)
Fixpoint dedup_loop (seen : gset string) (unique all_news : list item)
    : list item :=
  match all_news with
  | [] => unique
  | it :: rest =>
      if decide (url it ∉ seen)
      then dedup_loop ({[url it]} ∪ seen) (unique ++ [it])%list rest
      else dedup_loop seen unique rest
  end.

Definition dedup (all_news : list item) : list item :=
  dedup_loop ∅ [] all_news.

(** The sort key [x.get("priorityScore", 0)]. *)
Definition sort_key (it : item) : Z := default 0%Z (priorityScore it).

(** [x] may precede [y] in a list sorted by descending key. *)
Definition key_ge (x y : item) : Prop := (sort_key y ≤ sort_key x)%Z.

(** [list.sort(key=sort_key, reverse=True)] is a stable sort: items come out
    in non-increasing key order, items of equal key in their original order.
    It is modelled by the insertion sort with that contract: [x], which
    precedes every item of [l], is placed before the first item whose key
    is not greater. *)
Fixpoint insert_desc (x : item) (l : list item) : list item :=
  match l with
  | [] => [x]
  | y :: l' =>
      if decide (sort_key x < sort_key y)%Z then y :: insert_desc x l'
      else x :: y :: l'
  end.

Definition sort_desc (l : list item) : list item := foldr insert_desc [] l.

Section Aggregator.
Variable fromisoformat : string → option datetime.
(** [clock n] is the reading of the [n]-th call of
    [datetime.now(timezone.utc)] made by [main] after the fetches. *)
Variable clock : nat → Z.

(** [for item in unique: item["priorityScore"] = calc_score(item)], the
    [n]-th item being scored at the clock reading [start + n]. *)
Fixpoint score_loop (start : nat) (unique : list item) : list item :=
  match unique with
  | [] => []
  | it :: rest =>
      set_priorityScore (calc_score fromisoformat (clock start) it) it
      :: score_loop (S start) rest
  end.

(** [main], from the lists returned by the two fetchers to the snapshot
    dumped to the output file. *)
Definition main (newsapi gnews : list item) : snapshot :=
  let all_news := (([] ++ newsapi) ++ gnews)%list in
  let unique := dedup all_news in
  let unique := score_loop 0 unique in
  let unique := sort_desc unique in
  let unique := take 100 unique in
  {| lastUpdated := clock (length (dedup all_news));
     totalCount := length unique;
     news := unique |}.
End Aggregator.

(** ** Items that differ in one scoring input *)

(** The item with its [source] replaced. *)
Definition with_source (s : option string) (it : item) : item :=
  {| id := id it; title := title it; summary := summary it;
     source := s; sourceDetail := sourceDetail it;
     company := company it; url := url it; publishedAt := publishedAt it;
     item_engagement := item_engagement it; importance := importance it;
     tags := tags it; priorityScore := priorityScore it |}.

(** The item with its [importance] replaced. *)
Definition with_importance (i : option string) (it : item) : item :=
  {| id := id it; title := title it; summary := summary it;
     source := source it; sourceDetail := sourceDetail it;
     company := company it; url := url it; publishedAt := publishedAt it;
     item_engagement := item_engagement it; importance := i;
     tags := tags it; priorityScore := priorityScore it |}.

(** The item with its [engagement] replaced by the given counts. *)
Definition with_engagement (l c s : Z) (it : item) : item :=
  {| id := id it; title := title it; summary := summary it;
     source := source it; sourceDetail := sourceDetail it;
     company := company it; url := url it; publishedAt := publishedAt it;
     item_engagement := Some (Engagement (Some l) (Some c) (Some s));
     importance := importance it;
     tags := tags it; priorityScore := priorityScore it |}.

(** ** MD5, for [generate_id] *)

(** [s[:n]] *)
Fixpoint str_take (n : nat) (s : string) : string :=
  match n, s with
  | S n', String a s' => String a (str_take n' s')
  | _, _ => EmptyString
  end.

(** The bytes of a string, [s.encode()] on a byte string. *)
Fixpoint str_bytes (s : string) : list Z :=
  match s with
  | EmptyString => []
  | String a s' => Z.of_nat (nat_of_ascii a) :: str_bytes s'
  end.

(** Addition of 32-bit words. *)
Definition add32 (x y : Z) : Z := ((x + y) `mod` 4294967296)%Z.

(** Left rotation of a 32-bit word by [c] bits. *)
Definition rotl32 (x c : Z) : Z :=
  (Z.lor ((Z.shiftl x c) `mod` 4294967296) (Z.shiftr x (32 - c)))%Z.

(** Bitwise complement of a 32-bit word. *)
Definition not32 (x : Z) : Z := (4294967295 - x)%Z.

(** The per-round shift amounts. *)
Definition md5_shifts : list Z :=
  [
    7; 12; 17; 22; 7; 12; 17; 22; 7; 12; 17; 22; 7; 12; 17; 22;
    5; 9; 14; 20; 5; 9; 14; 20; 5; 9; 14; 20; 5; 9; 14; 20;
    4; 11; 16; 23; 4; 11; 16; 23; 4; 11; 16; 23; 4; 11; 16; 23;
    6; 10; 15; 21; 6; 10; 15; 21; 6; 10; 15; 21; 6; 10; 15; 21 ]%Z.

(** The per-round additive constants, [floor(2^32 * abs(sin(i + 1)))]. *)
Definition md5_consts : list Z :=
  [
    3614090360; 3905402710; 606105819; 3250441966;
    4118548399; 1200080426; 2821735955; 4249261313;
    1770035416; 2336552879; 4294925233; 2304563134;
    1804603682; 4254626195; 2792965006; 1236535329;
    4129170786; 3225465664; 643717713; 3921069994;
    3593408605; 38016083; 3634488961; 3889429448;
    568446438; 3275163606; 4107603335; 1163531501;
    2850285829; 4243563512; 1735328473; 2368359562;
    4294588738; 2272392833; 1839030562; 4259657740;
    2763975236; 1272893353; 4139469664; 3200236656;
    681279174; 3936430074; 3572445317; 76029189;
    3654602809; 3873151461; 530742520; 3299628645;
    4096336452; 1126891415; 2878612391; 4237533241;
    1700485571; 2399980690; 4293915773; 2240044497;
    1873313359; 4264355552; 2734768916; 1309151649;
    4149444226; 3174756917; 718787259; 3951481745 ]%Z.

(** The message padded to a multiple of 64 bytes: the byte 0x80, zeros up to
    56 modulo 64, then the bit length as a 64-bit little-endian integer. *)
Definition md5_pad (msg : list Z) : list Z :=
  let len := Z.of_nat (length msg) in
  let zeros := Z.to_nat ((55 - len) `mod` 64) in
  let bits := (len * 8)%Z in
  (msg ++ [128%Z] ++ replicate zeros 0%Z
   ++ map (λ i, ((Z.shiftr bits (8 * i)) `mod` 256)%Z)
        [0; 1; 2; 3; 4; 5; 6; 7]%Z)%list.

(** A little-endian 32-bit word from four bytes. *)
Definition word_of_bytes (bs : list Z) : Z :=
  foldr (λ b acc, (b + 256 * acc)%Z) 0%Z bs.

(** The four bytes of a 32-bit word, least significant first. *)
Definition word_bytes (w : Z) : list Z :=
  [(w `mod` 256)%Z; ((w `div` 256) `mod` 256)%Z;
   ((w `div` 65536) `mod` 256)%Z; ((w `div` 16777216) `mod` 256)%Z].

(** The first [n] words of a block. *)
Fixpoint block_words (n : nat) (bs : list Z) : list Z :=
  match n with
  | O => []
  | S n' => word_of_bytes (take 4 bs) :: block_words n' (drop 4 bs)
  end.

(** One of the 64 operations on the state [(a, b, c, d)]. *)
Definition md5_step (m : list Z) (st : Z * Z * Z * Z) (i : nat)
    : Z * Z * Z * Z :=
  let '(a, b, c, d) := st in
  let iz := Z.of_nat i in
  let '(f, g) :=
    if decide (i < 16)%nat then
      (Z.lor (Z.land b c) (Z.land (not32 b) d), iz)
    else if decide (i < 32)%nat then
      (Z.lor (Z.land d b) (Z.land (not32 d) c), ((5 * iz + 1) `mod` 16)%Z)
    else if decide (i < 48)%nat then
      (Z.lxor (Z.lxor b c) d, ((3 * iz + 5) `mod` 16)%Z)
    else
      (Z.lxor c (Z.lor b (not32 d)), ((7 * iz) `mod` 16)%Z) in
  let k := default 0%Z (md5_consts !! i) in
  let s := default 0%Z (md5_shifts !! i) in
  let w := default 0%Z (m !! Z.to_nat g) in
  let f' := add32 (add32 (add32 f a) k) w in
  (d, add32 b (rotl32 f' s), b, c).

(** The compression of one 64-byte block into the state. *)
Definition md5_block (st : Z * Z * Z * Z) (block : list Z) : Z * Z * Z * Z :=
  let m := block_words 16 block in
  let '(a, b, c, d) := foldl (md5_step m) st (seq 0 64) in
  let '(a0, b0, c0, d0) := st in
  (add32 a0 a, add32 b0 b, add32 c0 c, add32 d0 d).

(** The blocks of a padded message, at most [n] of them. *)
Fixpoint md5_blocks (n : nat) (st : Z * Z * Z * Z) (bs : list Z)
    : Z * Z * Z * Z :=
  match n with
  | O => st
  | S n' =>
      match bs with
      | [] => st
      | _ => md5_blocks n' (md5_block st (take 64 bs)) (drop 64 bs)
      end
  end.

(** The sixteen bytes of the digest. *)
Definition md5_digest (msg : list Z) : list Z :=
  let padded := md5_pad msg in
  let '(a, b, c, d) :=
    md5_blocks (length padded)
      (1732584193, 4023233417, 2562383102, 271733878)%Z padded in
  (word_bytes a ++ word_bytes b ++ word_bytes c ++ word_bytes d)%list.

(** The lower-case hexadecimal digit of a value below 16. *)
Definition hex_digit (n : Z) : ascii :=
  if decide (n < 10)%Z then ascii_of_nat (Z.to_nat (48 + n))
  else ascii_of_nat (Z.to_nat (87 + n)).

(** Two hexadecimal digits per byte. *)
Fixpoint hex_of_bytes (bs : list Z) : string :=
  match bs with
  | [] => EmptyString
  | b :: bs' =>
      String (hex_digit ((b `div` 16) `mod` 16))
        (String (hex_digit (b `mod` 16)) (hex_of_bytes bs'))
  end.

(** [hashlib.md5(s).hexdigest()] *)
Definition md5_hexdigest (s : string) : string :=
  hex_of_bytes (md5_digest (str_bytes s)).

(** [hashlib.md5(url.encode()).hexdigest()[:12]] *)
Definition generate_id (url : string) : string :=
  str_take 12 (md5_hexdigest url).

(** ** Fetchers *)

(** The [source] object of a provider article. *)
Record source_obj := SourceObj {
  src_name : option string
}.

(** An article of a provider response; a field is [None] when its key is
    absent (or, for the fields tested for truth, null). *)
Record article := Article {
  art_title : option string;
  art_url : option string;
  art_description : option string;
  art_source : option source_obj;
  art_publishedAt : option string
}.

(** The decoded JSON document of a provider response. *)
Record response := Response {
  resp_status : option string;
  resp_articles : option (list article)
}.

(** The truth value of [a.get(key)]: present and not empty. *)
Definition truthy (o : option string) : bool :=
  match o with
  | Some s => if decide (s = "") then false else true
  | None => false
  end.

Definition newsapi_keywords : list string :=
  ["autonomous driving"; "robotaxi"; "self-driving car"].

Section Fetchers.
(** [str.lower] *)
Variable lower : string → string.
(** [stamp n] is [datetime.now(timezone.utc).isoformat()] at the [n]-th
    evaluation made by a fetcher, one per item it appends. *)
Variable stamp : nat → string.

(** The dict appended for the article [a], [detail] being the value of the
    [sourceDetail] expression and [now_iso] the default of [publishedAt]. *)
Definition build_item (detail now_iso : string) (a : article) : item :=
  let a_title := default "" (art_title a) in
  let a_url := default "" (art_url a) in
  let a_description := default "" (art_description a) in
  {| id := generate_id a_url;
     title := a_title;
     summary := str_take 300 a_description;
     source := Some "news";
     sourceDetail := detail;
     company := detect_company lower (a_title +:+ " " +:+ a_description);
     url := a_url;
     publishedAt := Some (default now_iso (art_publishedAt a));
     item_engagement := Some (Engagement (Some 0%Z) (Some 0%Z) (Some 0%Z));
     importance := Some (calculate_importance lower a_title a_description);
     tags := extract_tags lower a_title;
     priorityScore := None |}.

(** The loop over the articles of one NewsAPI response.  [a["source"]]
    raises [KeyError] when the key is absent: the exception leaves the
    loop, and the [except] of the query keeps what was appended so far. *)
Fixpoint newsapi_articles (articles : list item) (arts : list article)
    : list item :=
  match arts with
  | [] => articles
  | a :: rest =>
      if truthy (art_title a) && truthy (art_url a) then
        match art_source a with
        | Some src =>
            newsapi_articles
              (articles ++ [build_item (default "Unknown" (src_name src))
                              (stamp (length articles)) a])%list
              rest
        | None => articles
        end
      else newsapi_articles articles rest
  end.

(** One pass of the keyword loop of [fetch_newsapi]; the response is [None]
    when the request or the decoding raised. *)
Definition newsapi_query (articles : list item) (r : option response)
    : list item :=
  match r with
  | Some data =>
      if decide (resp_status data = Some "ok")
      then newsapi_articles articles (default [] (resp_articles data))
      else articles
  | None => articles
  end.

(** [fetch_newsapi], [get kw] being the decoded response to the query for
    the keyword [kw]. *)
Definition fetch_newsapi (get : string → option response) : list item :=
  foldl (λ articles kw, newsapi_query articles (get kw)) [] newsapi_keywords.

(** The loop over the articles of the GNews response; a missing [source]
    is read as the empty dict. *)
Fixpoint gnews_articles (articles : list item) (arts : list article)
    : list item :=
  match arts with
  | [] => articles
  | a :: rest =>
      if truthy (art_title a) && truthy (art_url a) then
        gnews_articles
          (articles
           ++ [build_item
                 (default "Unknown"
                    (src_name (default (SourceObj None) (art_source a))))
                 (stamp (length articles)) a])%list
          rest
      else gnews_articles articles rest
  end.

(** [fetch_gnews]; the response is [None] when the request or the decoding
    raised. *)
Definition fetch_gnews (r : option response) : list item :=
  match r with
  | Some data => gnews_articles [] (default [] (resp_articles data))
  | None => []
  end.
End Fetchers.

(** The whole run: both fetchers, then the aggregation of [main]. *)
Definition collect (lower : string → string)
    (fromisoformat : string → option datetime) (clock : nat → Z)
    (stamp_newsapi stamp_gnews : nat → string)
    (get : string → option response) (gnews : option response) : snapshot :=
  main fromisoformat clock
    (fetch_newsapi lower stamp_newsapi get)
    (fetch_gnews lower stamp_gnews gnews).

(** Articles for the examples. *)
Definition article_A : article :=
  {| art_title := Some "Tesla launches FSD in California";
     art_url := Some "u1";
     art_description := Some "The robotaxi service opens to the public";
     art_source := Some (SourceObj (Some "Wire"));
     art_publishedAt := Some "2024-01-01T00:00:00Z" |}.

Definition article_untitled : article :=
  {| art_title := Some ""; art_url := Some "u2"; art_description := None;
     art_source := Some (SourceObj None); art_publishedAt := None |}.

Definition article_sourceless : article :=
  {| art_title := Some "Waymo expands"; art_url := Some "u3";
     art_description := None; art_source := None; art_publishedAt := None |}.

Definition article_B : article :=
  {| art_title := Some "Zoox robotaxi test"; art_url := Some "u4";
     art_description := None; art_source := Some (SourceObj None);
     art_publishedAt := None |}.

(** ** Vocabulary for the properties of the fetchers *)

(** The [if a.get("title") and a.get("url")] test. *)
Definition valid_article (a : article) : bool :=
  truthy (art_title a) && truthy (art_url a).

(** The [sourceDetail] of an article whose [source] key, if present, holds
    a dict. *)
Definition source_detail (a : article) : string :=
  default "Unknown" (src_name (default (SourceObj None) (art_source a))).

(** The item the fetchers build for the [n]-th article [a] they accept. *)
Definition nth_item (lower : string → string) (stamp : nat → string)
    (n : nat) (a : article) : item :=
  build_item lower (source_detail a) (stamp n) a.

(** The articles of a response that [fetch_newsapi] iterates over. *)
Definition ok_articles (r : option response) : list article :=
  match r with
  | Some data =>
      if decide (resp_status data = Some "ok")
      then default [] (resp_articles data)
      else []
  | None => []
  end.

(** A lower-case hexadecimal digit. *)
Definition is_hex (a : ascii) : bool :=
  let n := nat_of_ascii a in
  ((48 <=? n)%nat && (n <=? 57)%nat) || ((97 <=? n)%nat && (n <=? 102)%nat).

(** Every character of the string passes the test. *)
Fixpoint str_forall (p : ascii → bool) (s : string) : bool :=
  match s with
  | EmptyString => true
  | String a s' => p a && str_forall p s'
  end.

(** What every item built by a fetcher satisfies. *)
Definition fetched_shape (it : item) : Prop :=
  title it ≠ "" ∧ url it ≠ ""
  ∧ id it = generate_id (url it)
  ∧ source it = Some "news"
  ∧ item_engagement it = Some (Engagement (Some 0%Z) (Some 0%Z) (Some 0%Z))
  ∧ is_Some (publishedAt it)
  ∧ priorityScore it = None
  ∧ (String.length (summary it) ≤ 300)%nat
  ∧ (length (tags it) ≤ 5)%nat
  ∧ importance it ∈ [Some "high"; Some "medium"; Some "low"]
  ∧ company it ∈ "other" :: COMPANIES.*1.

(** A NewsAPI stub for the examples: only the query ["robotaxi"] succeeds. *)
Definition example_get (kw : string) : option response :=
  if decide (kw = "robotaxi")
  then Some (Response (Some "ok")
               (Some [article_A; article_untitled; article_B]))
  else None.

(** The clock stamps of the examples. *)
Definition example_stamp (n : nat) : string := "2024-01-01T00:00:00+00:00".

(** ** A concrete timestamp parser for the examples *)

(** The value of a decimal digit. *)
Definition digit_val (a : ascii) : option Z :=
  let n := Z.of_nat (nat_of_ascii a) in
  if decide (48 ≤ n ≤ 57)%Z then Some (n - 48)%Z else None.

(** Reads exactly [n] decimal digits. *)
Fixpoint read_digits (n : nat) (acc : Z) (s : string) : option (Z * string) :=
  match n with
  | O => Some (acc, s)
  | S n' =>
      match s with
      | String a s' => d ← digit_val a; read_digits n' (acc * 10 + d)%Z s'
      | EmptyString => None
      end
  end.

(** Reads the character [c]. *)
Definition read_char (c : ascii) (s : string) : option string :=
  match s with
  | String a s' => if decide (a = c) then Some s' else None
  | EmptyString => None
  end.

(** Reads a sign, [1] for ["+"] and [-1] for ["-"]. *)
Definition read_sign (s : string) : option (Z * string) :=
  match s with
  | String a s' =>
      if decide (a = "+"%char) then Some (1%Z, s')
      else if decide (a = "-"%char) then Some ((-1)%Z, s')
      else None
  | EmptyString => None
  end.

Definition is_leap (y : Z) : bool :=
  bool_decide (y mod 4 = 0 ∧ (y mod 100 ≠ 0 ∨ y mod 400 = 0))%Z.

Definition days_in_month (y m : Z) : Z :=
  if decide (m = 2)%Z then (if is_leap y then 29 else 28)%Z
  else if decide (m = 4 ∨ m = 6 ∨ m = 9 ∨ m = 11)%Z then 30%Z
  else 31%Z.

(** Days from 1970-01-01 to the proleptic Gregorian date [y]-[m]-[d]. *)
Definition days_from_civil (y m d : Z) : Z :=
  let y' := (if decide (m ≤ 2)%Z then y - 1 else y)%Z in
  let era := (y' `div` 400)%Z in
  let yoe := (y' - era * 400)%Z in
  let mp := (if decide (m ≤ 2)%Z then m + 9 else m - 3)%Z in
  let doy := ((153 * mp + 2) `div` 5 + d - 1)%Z in
  let doe := (yoe * 365 + yoe `div` 4 - yoe `div` 100 + doy)%Z in
  (era * 146097 + doe - 719468)%Z.

(** [datetime.fromisoformat] on the form [YYYY-MM-DDTHH:MM:SS+HH:MM] (or
    with a negative offset), the only form the examples use; every other
    string is rejected by this instance. *)
Definition iso_parse (s : string) : option datetime :=
  '(y, s) ← read_digits 4 0 s; s ← read_char "-" s;
  '(m, s) ← read_digits 2 0 s; s ← read_char "-" s;
  '(d, s) ← read_digits 2 0 s; s ← read_char "T" s;
  '(hh, s) ← read_digits 2 0 s; s ← read_char ":" s;
  '(mi, s) ← read_digits 2 0 s; s ← read_char ":" s;
  '(ss, s) ← read_digits 2 0 s;
  '(sg, s) ← read_sign s;
  '(oh, s) ← read_digits 2 0 s; s ← read_char ":" s;
  '(om, s) ← read_digits 2 0 s;
  if decide (s = "" ∧ 1 ≤ y ∧ 1 ≤ m ≤ 12 ∧ 1 ≤ d ≤ days_in_month y m
             ∧ hh ≤ 23 ∧ mi ≤ 59 ∧ ss ≤ 59 ∧ oh ≤ 23 ∧ om ≤ 59)%Z
  then
    let local := (days_from_civil y m d * 86400 + hh * 3600 + mi * 60 + ss)%Z in
    let offset := (sg * (oh * 3600 + om * 60))%Z in
    Some (Aware ((local - offset) * 1000000))
  else None.

(** Reads [HH:MM] or [HH:MM:SS], giving the seconds since midnight. *)
Definition read_time (s : string) : option (Z * string) :=
  '(hh, s) ← read_digits 2 0 s; s ← read_char ":" s;
  '(mi, s) ← read_digits 2 0 s;
  '(ss, s) ← match read_char ":" s with
              | Some s' => read_digits 2 0 s'
              | None => Some (0%Z, s)
              end;
  if decide (hh ≤ 23 ∧ mi ≤ 59 ∧ ss ≤ 59)%Z
  then Some ((hh * 3600 + mi * 60 + ss)%Z, s)
  else None.

(** Reads a final offset [+HH:MM] or [-HH:MM], in seconds. *)
Definition read_offset (s : string) : option Z :=
  '(sg, s) ← read_sign s;
  '(oh, s) ← read_digits 2 0 s; s ← read_char ":" s;
  '(om, s) ← read_digits 2 0 s;
  if decide (s = "" ∧ oh ≤ 23 ∧ om ≤ 59)%Z
  then Some (sg * (oh * 3600 + om * 60))%Z
  else None.

(** [datetime.fromisoformat] on the forms [YYYY-MM-DD],
    [YYYY-MM-DD*HH:MM] and [YYYY-MM-DD*HH:MM:SS], where [*] is any one
    character, the last two optionally followed by an offset.  Without an
    offset the result is naive: so is the result for a date followed by
    ["+00:00"], whose sign is read as the separator. *)
Definition fromisoformat_py (s : string) : option datetime :=
  '(y, s) ← read_digits 4 0 s; s ← read_char "-" s;
  '(m, s) ← read_digits 2 0 s; s ← read_char "-" s;
  '(d, s) ← read_digits 2 0 s;
  if decide (1 ≤ y ∧ 1 ≤ m ≤ 12 ∧ 1 ≤ d ≤ days_in_month y m)%Z then
    let day := (days_from_civil y m d * 86400)%Z in
    match s with
    | EmptyString => Some (Naive (day * 1000000))
    | String _ s' =>
        '(secs, s'') ← read_time s';
        match s'' with
        | EmptyString => Some (Naive ((day + secs) * 1000000))
        | _ =>
            off ← read_offset s'';
            Some (Aware ((day + secs - off) * 1000000))
        end
    end
  else None.

(** A news item as the fetchers build it: source ["news"], zero engagement. *)
Definition fetched (u t pub imp : string) : item :=
  {| id := ""; title := t; summary := ""; source := Some "news";
     sourceDetail := "Unknown"; company := "other"; url := u;
     publishedAt := Some pub;
     item_engagement := Some (Engagement (Some 0%Z) (Some 0%Z) (Some 0%Z));
     importance := Some imp; tags := []; priorityScore := None |}.

(** 2024-01-01T00:00:00Z in microseconds since the epoch. *)
Definition new_year_2024 : Z := 1704067200000000.

(** An item published 1000 hours after [new_year_2024]. *)
Definition future_item : item :=
  fetched "https://example.org/a" "Robotaxi plan" "2024-02-11T16:00:00Z" "medium".

(** An item published 10 hours before [new_year_2024]. *)
Definition recent_item : item :=
  fetched "https://example.org/b" "Robotaxi plan" "2023-12-31T14:00:00Z" "medium".

(** An item published 30 hours before [new_year_2024]. *)
Definition old_item : item :=
  fetched "https://example.org/c" "Robotaxi plan" "2023-12-30T18:00:00Z" "medium".




(** An item without a [publishedAt] key. *)
Definition undated_item : item :=
  {| id := ""; title := "Robotaxi plan"; summary := ""; source := Some "news";
     sourceDetail := "Unknown"; company := "other";
     url := "https://example.org/d"; publishedAt := None;
     item_engagement := Some (Engagement (Some 0%Z) (Some 0%Z) (Some 0%Z));
     importance := Some "medium"; tags := []; priorityScore := None |}.

(** An item with 100 likes, 50 comments and 25 shares, [total = 300]. *)
Definition liked_item : item :=
  {| id := ""; title := "Robotaxi plan"; summary := ""; source := Some "reddit";
     sourceDetail := "Unknown"; company := "other";
     url := "https://example.org/e"; publishedAt := None;
     item_engagement :=
       Some (Engagement (Some 100%Z) (Some 50%Z) (Some 25%Z));
     importance := Some "medium"; tags := []; priorityScore := None |}.

(** An item that carries a score already, for running the sort. *)
Definition scored_item (u : string) (score : Z) : item :=
  set_priorityScore score (fetched u "Robotaxi plan" "" "low").

(** The two items of the end-to-end example: the same url from two
    fetchers. *)
Definition item_A : item :=
  {| id := "u1"; title := "Tesla launches FSD in California"; summary := "";
     source := Some "news"; sourceDetail := "Unknown";
     company := detect_company ascii_lower "Tesla launches FSD in California ";
     url := "u1"; publishedAt := Some "2024-01-01T00:00:00Z";
     item_engagement := Some (Engagement (Some 0%Z) (Some 0%Z) (Some 0%Z));
     importance :=
       Some (calculate_importance ascii_lower
               "Tesla launches FSD in California" "");
     tags := extract_tags ascii_lower "Tesla launches FSD in California";
     priorityScore := None |}.

Definition item_B : item :=
  fetched "u1" "duplicate" "2023-12-31T14:00:00Z" "low".

Example iso_parse_new_year :
  iso_parse "2024-01-01T00:00:00+00:00" = Some (Aware new_year_2024).
Proof. vm_compute. reflexivity. Qed.

Example iso_parse_offset :
  iso_parse "2024-01-01T09:00:00+09:00" = Some (Aware new_year_2024).
Proof. vm_compute. reflexivity. Qed.

Example iso_parse_future :
  iso_parse "2024-02-11T16:00:00+00:00"
  = Some (Aware (new_year_2024 + 1000 * 3600 * 1000000)).
Proof. vm_compute. reflexivity. Qed.

Example iso_parse_bad : iso_parse "+00:00" = None.
Proof. reflexivity. Qed.

Example pub_string_z :
  pub_string (fetched "u" "t" "2024-02-11T16:00:00Z" "low")
  = "2024-02-11T16:00:00+00:00".
Proof. reflexivity. Qed.

Example pub_string_plain :
  pub_string (fetched "u" "t" "2024-02-11T16:00:00" "low")
  = "2024-02-11T16:00:00+00:00".
Proof. reflexivity. Qed.

(** * Properties *)

(** ** Substring search *)

Lemma append_nil (s : string) : "" +:+ s = s.
Proof. reflexivity. Qed.

Lemma append_cons (a : ascii) (s t : string) :
  String a s +:+ t = String a (s +:+ t).
Proof. reflexivity. Qed.

Lemma startswith_spec (p s : string) :
  startswith p s = true ↔ ∃ post, s = p +:+ post.
Proof.
  revert s. induction p as [|a p IH]; intros s; simpl.
  - split; [intros _; by exists s | done].
  - destruct s as [|b s].
    + split; [done | intros [post H]; discriminate].
    + setoid_rewrite append_cons. destruct (decide (a = b)) as [->|Hne].
      * rewrite IH. split; intros [post H]; exists post; congruence.
      * split; [done | intros [post H]; congruence].
Qed.

Lemma str_in_spec (kw s : string) :
  str_in kw s = true ↔ Substring kw s.
Proof.
  unfold Substring. induction s as [|b s IH]; simpl.
  - rewrite orb_false_r, startswith_spec. split.
    + intros [post H]. by exists "", post.
    + intros ([|c pre] & post & H); [by exists post | discriminate].
  - rewrite orb_true_iff, startswith_spec, IH. split.
    + intros [[post H] | (pre & post & H)].
      * by exists "", post.
      * exists (String b pre), post. by rewrite append_cons, H.
    + intros ([|c pre] & post & H).
      * left. by exists post.
      * right. exists pre, post. rewrite append_cons in H. congruence.
Qed.

Lemma any_in_spec (kws : list string) (text : string) :
  any_in kws text = true ↔ AnyIn kws text.
Proof.
  unfold any_in, AnyIn. rewrite existsb_exists. split.
  - intros (kw & Hin & H). exists kw.
    split; [by apply list_elem_of_In | by apply str_in_spec].
  - intros (kw & Hin & H). exists kw.
    split; [by apply list_elem_of_In | by apply str_in_spec].
Qed.

Lemma any_in_false (kws : list string) (text : string) :
  any_in kws text = false ↔ ¬ AnyIn kws text.
Proof. rewrite <- any_in_spec. by destruct (any_in kws text). Qed.

(** ** Classifier *)

Lemma detect_company_loop_first (tl : string) (before after : list (string * list string))
    (c : string) (kws : list string) :
  AnyIn kws tl →
  Forall (λ e, ¬ AnyIn e.2 tl) before →
  detect_company_loop tl (before ++ (c, kws) :: after) = c.
Proof.
  intros Hc. induction 1 as [|[c' kws'] before Hno _ IH]; simpl.
  - by apply any_in_spec in Hc as ->.
  - apply any_in_false in Hno. simpl in Hno. by rewrite Hno.
Qed.

Lemma detect_company_loop_none (tl : string) (table : list (string * list string)) :
  Forall (λ e, ¬ AnyIn e.2 tl) table →
  detect_company_loop tl table = "other".
Proof.
  induction 1 as [|[c kws] table Hno _ IH]; simpl; [done|].
  apply any_in_false in Hno. simpl in Hno. by rewrite Hno.
Qed.

(** When the entry at index [i] matches, the loop returns the key of an
    entry at an index not after [i]. *)
Lemma detect_company_loop_bound (tl : string) (table : list (string * list string))
    (i : nat) (c : string) (kws : list string) :
  table !! i = Some (c, kws) → AnyIn kws tl →
  ∃ k c' kws', (k ≤ i)%nat ∧ table !! k = Some (c', kws')
               ∧ detect_company_loop tl table = c'.
Proof.
  revert i. induction table as [|[c0 k0] table IH]; intros i Hi Hm; [done|].
  simpl. destruct (any_in k0 tl) eqn:E.
  - exists 0%nat, c0, k0. split; [lia | done].
  - destruct i as [|i]; simpl in Hi.
    + injection Hi as -> ->. apply any_in_spec in Hm. congruence.
    + destruct (IH i Hi Hm) as (k & c' & kws' & Hk & Hl & Hr).
      exists (S k), c', kws'. split; [lia | done].
Qed.

Lemma COMPANIES_keys_NoDup : NoDup COMPANIES.*1.
Proof. apply (bool_decide_unpack _). by vm_compute. Qed.

Lemma Forall_not_AnyIn (tl : string) (table : list (string * list string)) :
  forallb (λ e, negb (any_in e.2 tl)) table = true →
  Forall (λ e, ¬ AnyIn e.2 tl) table.
Proof.
  rewrite forallb_forall, Forall_forall. intros H e He.
  apply any_in_false, negb_true_iff, H. by apply list_elem_of_In.
Qed.

Section ClassifierFacts.
Variable lower : string → string.

(** C6: [detect_company] returns the first company, in declaration order,
    one of whose keywords is a substring of the lower-cased text, and
    ["other"] when no company has one; of two matching companies the one
    declared later is never returned. *)
Theorem detect_company_first_declared (text : string) :
  (∀ before c kws after,
      COMPANIES = before ++ (c, kws) :: after →
      AnyIn kws (lower text) →
      Forall (λ e, ¬ AnyIn e.2 (lower text)) before →
      detect_company lower text = c)
  ∧ (Forall (λ e, ¬ AnyIn e.2 (lower text)) COMPANIES →
     detect_company lower text = "other")
  ∧ (∀ i j ci ki cj kj,
      COMPANIES !! i = Some (ci, ki) → COMPANIES !! j = Some (cj, kj) →
      (i < j)%nat →
      AnyIn ki (lower text) → AnyIn kj (lower text) →
      detect_company lower text ≠ cj).
Proof.
  unfold detect_company. cbv zeta. split; [|split].
  - intros before c kws after -> Hc Hno.
    by apply detect_company_loop_first.
  - apply detect_company_loop_none.
  - intros i j ci ki cj kj Hi Hj Hlt Hmi _ Heq.
    destruct (detect_company_loop_bound _ _ _ _ _ Hi Hmi)
      as (k & c' & kws' & Hk & Hl & Hr).
    rewrite Heq in Hr. subst c'.
    assert (k = j); [|lia].
    eapply (NoDup_lookup _ _ _ cj COMPANIES_keys_NoDup);
      rewrite list_lookup_fmap; [by rewrite Hl | by rewrite Hj].
Qed.


Lemma extract_tags_loop_matching (tl : string) (table : list (string * list string)) :
  extract_tags_loop tl table = (matching tl table).*1.
Proof.
  unfold matching. induction table as [|[tag kws] table IH]; [done|].
  simpl. rewrite filter_cons. simpl.
  destruct (any_in kws tl); case_decide; try done; simpl; by rewrite IH.
Qed.

(** C10: a title whose lower-cased form contains ["us"], and for which at
    most four of the six patterns declared before ["USA"] match, gets the
    tag ["USA"]. *)
Theorem extract_tags_us_USA (title : string) :
  Substring "us" (lower title) →
  (length (matching (lower title) (take 6 patterns)) ≤ 4)%nat →
  "USA" ∈ extract_tags lower title.
Proof.
  intros Hus Hlen. unfold extract_tags. cbv zeta.
  rewrite extract_tags_loop_matching.
  change patterns with
    (take 6 patterns ++ [("USA", ["us"; "america"; "california"])])%list.
  unfold matching in *. rewrite filter_app, filter_cons, filter_nil.
  rewrite decide_True.
  2:{ apply any_in_spec. exists "us". split; [set_solver | done]. }
  set (pre := filter _ (take 6 patterns)) in *.
  rewrite fmap_app. simpl.
  apply list_elem_of_lookup. exists (length pre.*1).
  rewrite lookup_take_lt by (rewrite length_fmap; lia).
  by rewrite list_lookup_middle.
Qed.
End ClassifierFacts.

(** ** Rounding *)

Lemma Int_part_frac (x : R) : (x = IZR (Int_part x) + frac_part x)%R.
Proof. unfold frac_part. lra. Qed.

Lemma frac_part_range (x : R) : (0 <= frac_part x < 1)%R.
Proof. destruct (base_fp x). lra. Qed.

(** The rounded value is within one half of its argument. *)
Lemma py_round_near (x : R) :
  (IZR (py_round x) - 1 / 2 <= x <= IZR (py_round x) + 1 / 2)%R.
Proof.
  pose proof (Int_part_frac x) as Hx. pose proof (frac_part_range x) as Hr.
  unfold py_round. cbv zeta.
  repeat destruct (Rlt_dec _ _); try destruct (Z.even _);
    rewrite ?plus_IZR; lra.
Qed.

(** A real within less than one half of an integer rounds to it. *)
Lemma py_round_unique (x : R) (n : Z) :
  (IZR n - 1 / 2 < x < IZR n + 1 / 2)%R → py_round x = n.
Proof.
  intros Hn. pose proof (py_round_near x) as Hx.
  assert (IZR (py_round x) < IZR (n + 1))%R as H1 by (rewrite plus_IZR; lra).
  assert (IZR n < IZR (py_round x + 1))%R as H2 by (rewrite plus_IZR; lra).
  apply lt_IZR in H1, H2. lia.
Qed.

Lemma py_round_IZR (n : Z) : py_round (IZR n) = n.
Proof. apply py_round_unique. lra. Qed.

Lemma py_round_mono (x y : R) : (x <= y)%R → (py_round x ≤ py_round y)%Z.
Proof.
  intros Hxy. pose proof (py_round_near x) as Hx.
  pose proof (py_round_near y) as Hy.
  destruct (Z.le_gt_cases (py_round x) (py_round y)) as [|Hgt]; [done|].
  assert (py_round y + 1 ≤ py_round x)%Z as Hle by lia.
  apply IZR_le in Hle. rewrite plus_IZR in Hle.
  assert (x = y) as -> by lra. lia.
Qed.

Lemma py_round_ge (x : R) (n : Z) : (IZR n <= x)%R → (n ≤ py_round x)%Z.
Proof. intros H. rewrite <- (py_round_IZR n). by apply py_round_mono. Qed.

Lemma py_round_le (x : R) (n : Z) : (x <= IZR n)%R → (py_round x ≤ n)%Z.
Proof. intros H. rewrite <- (py_round_IZR n). by apply py_round_mono. Qed.

Example py_round_half_even :
  py_round 0.5 = 0%Z ∧ py_round 1.5 = 2%Z ∧ py_round 2.5 = 2%Z.
Proof.
  assert (∀ n : Z, py_round (IZR n + 1 / 2)
                   = if Z.even n then n else (n + 1)%Z) as H.
  { intros n. unfold py_round. cbv zeta.
    assert (Int_part (IZR n + 1 / 2) = n) as Hn.
    { symmetry. apply Int_part_spec. lra. }
    assert (frac_part (IZR n + 1 / 2) = (1 / 2)%R) as ->.
    { unfold frac_part. rewrite Hn. lra. }
    rewrite Hn. repeat destruct (Rlt_dec _ _); try lra. done. }
  replace 0.5%R with (IZR 0 + 1 / 2)%R by lra.
  replace 1.5%R with (IZR 1 + 1 / 2)%R by lra.
  replace 2.5%R with (IZR 2 + 1 / 2)%R by lra.
  by rewrite !H.
Qed.

(** ** Scorer *)

Lemma src_weight_cases (k : string) :
  let w := default 1%R (src_weights !! k) in
  w = 1.5%R ∨ w = 1%R ∨ w = 0.8%R ∨ w = 0.7%R.
Proof.
  unfold src_weights. cbv zeta.
  rewrite !lookup_insert. repeat case_decide; simpl; auto.
  rewrite lookup_singleton. case_decide; simpl; auto.
Qed.

Lemma imp_bonus_cases (k : string) :
  let b := default 0%Z (imp_bonus !! k) in
  b = 20%Z ∨ b = 10%Z ∨ b = 0%Z.
Proof.
  unfold imp_bonus. cbv zeta.
  rewrite !lookup_insert. repeat case_decide; simpl; auto.
  rewrite lookup_singleton. case_decide; simpl; auto.
Qed.

Lemma src_score_range (it : item) : (21 <= src_score it <= 45)%R.
Proof.
  unfold src_score.
  destruct (src_weight_cases (default "news" (source it)))
    as [-> | [-> | [-> | ->]]]; lra.
Qed.

Lemma bonus_range (it : item) : (0 <= IZR (bonus it) <= 20)%R.
Proof.
  unfold bonus.
  destruct (imp_bonus_cases (default "low" (importance it)))
    as [-> | [-> | ->]]; lra.
Qed.

Lemma eng_score_range (it : item) : (0 <= eng_score it <= 100)%R.
Proof.
  unfold eng_score. cbv zeta. case_decide; [|lra].
  pose proof (sqrt_pos (IZR (eng_total it))).
  unfold Rmin. destruct (Rle_dec _ _); lra.
Qed.

(** The hours elapsed are the whole-microsecond difference, rescaled. *)
Lemma hours_scale (d : Z) :
  (total_seconds d / 3600 = IZR d / 3600000000)%R.
Proof. unfold total_seconds. lra. Qed.

(** A missing or empty [publishedAt] reaches the parser as ["+00:00"]. *)
Lemma pub_string_missing (it : item) :
  publishedAt it = None ∨ publishedAt it = Some "" →
  pub_string it = "+00:00".
Proof. unfold pub_string. by intros [-> | ->]. Qed.

Section ScorerFacts.
Variable fromisoformat : string → option datetime.

Lemma try_hours_aware (now t : Z) (it : item) :
  fromisoformat (pub_string it) = Some (Aware t) →
  try_hours fromisoformat now it = Some (IZR (now - t) / 3600000000)%R.
Proof.
  intros H. unfold try_hours. rewrite H. simpl. by rewrite hours_scale.
Qed.

Lemma try_hours_failed (now : Z) (it : item) :
  fromisoformat (pub_string it) = None →
  try_hours fromisoformat now it = None.
Proof. intros H. unfold try_hours. by rewrite H. Qed.

Lemma time_score_nonneg (now : Z) (it : item) :
  (0 <= time_score fromisoformat now it)%R.
Proof.
  unfold time_score. destruct (try_hours _ _ _); [apply Rmax_l | lra].
Qed.

Lemma time_score_le_100 (now : Z) (it : item) :
  (∀ t, fromisoformat (pub_string it) = Some (Aware t) → (t ≤ now)%Z) →
  (time_score fromisoformat now it <= 100)%R.
Proof.
  intros Hpast. unfold time_score, try_hours.
  destruct (fromisoformat (pub_string it)) as [[w|t]|] eqn:E; simpl; try lra.
  rewrite hours_scale.
  assert (0 <= IZR (now - t))%R by (apply IZR_le; specialize (Hpast t eq_refl); lia).
  unfold Rmax. destruct (Rle_dec _ _); lra.
Qed.

(** Without a timestamp in the future the weighted sum is at most
    [30 + 35 + 9 + 3]. *)
Lemma calc_score_le_77 (now : Z) (it : item) :
  (∀ t, fromisoformat (pub_string it) = Some (Aware t) → (t ≤ now)%Z) →
  (0 ≤ calc_score fromisoformat now it ≤ 77)%Z.
Proof.
  intros Hpast. unfold calc_score.
  pose proof (time_score_nonneg now it).
  pose proof (time_score_le_100 now it Hpast).
  pose proof (eng_score_range it). pose proof (src_score_range it).
  pose proof (bonus_range it).
  split; [apply py_round_ge | apply py_round_le]; lra.
Qed.

(** C1, amended: when [publishedAt] does not parse, or parses to an instant
    not later than the reference time, [calc_score] is an integer between
    0 and 100. *)
Theorem calc_score_range (now : Z) (it : item) :
  (∀ t, fromisoformat (pub_string it) = Some (Aware t) → (t ≤ now)%Z) →
  (0 ≤ calc_score fromisoformat now it ≤ 100)%Z.
Proof. intros Hpast. pose proof (calc_score_le_77 now it Hpast). lia. Qed.


(** C5: with [total = likes + 3*comments + 2*shares], the engagement
    component of [calc_score] is [min(100, sqrt(total) * 2)] when
    [total > 0] and exactly 10 when [total = 0]. *)
Theorem eng_score_formula (now : Z) (it : item) :
  let eng := default (Engagement None None None) (item_engagement it) in
  let total := (default 0 (likes eng) + 3 * default 0 (comments eng)
                + 2 * default 0 (shares eng))%Z in
  calc_score fromisoformat now it
  = py_round (time_score fromisoformat now it * 0.3 + eng_score it * 0.35
              + src_score it * 0.2 + IZR (bonus it) * 0.15)%R
  ∧ ((0 < total)%Z → eng_score it = Rmin 100 (sqrt (IZR total) * 2))
  ∧ (total = 0%Z → eng_score it = 10%R).
Proof.
  intros eng total. split; [done|].
  assert (eng_total it = total) as Ht.
  { unfold eng_total, total, eng. cbv zeta. lia. }
  unfold eng_score. cbv zeta. rewrite Ht.
  split; intros H; case_decide; (done || lia).
Qed.


(** C8: when [publishedAt] cannot be parsed the recency component is the
    constant 50 and [calc_score] is the rounded weighted sum computed with
    it; a missing or empty [publishedAt] hands ["+00:00"] to the parser. *)
Theorem calc_score_parse_failure (now : Z) (it : item) :
  fromisoformat (pub_string it) = None →
  time_score fromisoformat now it = 50%R
  ∧ calc_score fromisoformat now it
    = py_round (50 * 0.3 + eng_score it * 0.35
                + src_score it * 0.2 + IZR (bonus it) * 0.15)%R
  ∧ (0 ≤ calc_score fromisoformat now it ≤ 100)%Z.
Proof.
  intros H.
  assert (time_score fromisoformat now it = 50%R) as Ht
    by (unfold time_score; by rewrite try_hours_failed).
  split; [done|]. split; [unfold calc_score; by rewrite Ht|].
  assert (0 ≤ calc_score fromisoformat now it ≤ 77)%Z; [|lia].
  apply calc_score_le_77. intros t Ht'. congruence.
Qed.
End ScorerFacts.

(** ** The scorer on concrete items *)

Lemma fetched_eng_score (u t pub imp : string) :
  eng_score (fetched u t pub imp) = 10%R.
Proof. reflexivity. Qed.

Lemma fetched_src_score (u t pub imp : string) :
  src_score (fetched u t pub imp) = 30%R.
Proof.
  unfold src_score. simpl.
  replace (src_weights !! "news") with (Some 1%R) by reflexivity.
  simpl. lra.
Qed.

(** The score of a fetched item of importance ["medium"] whose timestamp is
    read as the instant [t]. *)
Lemma calc_score_fetched_medium (f : string → option datetime) (now t : Z)
    (u ttl pub : string) :
  f (pub_string (fetched u ttl pub "medium")) = Some (Aware t) →
  calc_score f now (fetched u ttl pub "medium")
  = py_round (Rmax 0 (100 - IZR (now - t) / 3600000000 * 4) * 0.3 + 11)%R.
Proof.
  intros H. unfold calc_score, time_score.
  rewrite (try_hours_aware f now t _ H).
  rewrite fetched_eng_score, fetched_src_score.
  replace (bonus (fetched u ttl pub "medium")) with 10%Z by reflexivity.
  f_equal. lra.
Qed.

Lemma future_item_parsed :
  iso_parse (pub_string future_item) = Some (Aware 1707667200000000).
Proof. vm_compute. reflexivity. Qed.

Lemma recent_item_parsed :
  iso_parse (pub_string recent_item) = Some (Aware 1704031200000000).
Proof. vm_compute. reflexivity. Qed.

Lemma old_item_parsed :
  iso_parse (pub_string old_item) = Some (Aware 1703959200000000).
Proof. vm_compute. reflexivity. Qed.

(** Published 1000 hours ahead of the clock: recency 4100, score 1241. *)
Example calc_score_future_item :
  calc_score iso_parse new_year_2024 future_item = 1241%Z.
Proof.
  unfold future_item.
  rewrite (calc_score_fetched_medium _ _ _ _ _ _ future_item_parsed).
  change (new_year_2024 - 1707667200000000)%Z with (-3600000000000)%Z.
  apply py_round_unique. unfold Rmax. destruct (Rle_dec _ _); lra.
Qed.

(** Published 10 hours ago: recency 60, score 18 + 3.5 + 6 + 1.5. *)
Example calc_score_recent_item :
  calc_score iso_parse new_year_2024 recent_item = 29%Z.
Proof.
  unfold recent_item.
  rewrite (calc_score_fetched_medium _ _ _ _ _ _ recent_item_parsed).
  change (new_year_2024 - 1704031200000000)%Z with 36000000000%Z.
  apply py_round_unique. unfold Rmax. destruct (Rle_dec _ _); lra.
Qed.

(** Published 30 hours ago: recency 0, score 3.5 + 6 + 1.5. *)
Example calc_score_old_item :
  calc_score iso_parse new_year_2024 old_item = 11%Z.
Proof.
  unfold old_item.
  rewrite (calc_score_fetched_medium _ _ _ _ _ _ old_item_parsed).
  change (new_year_2024 - 1703959200000000)%Z with 108000000000%Z.
  apply py_round_unique. unfold Rmax. destruct (Rle_dec _ _); lra.
Qed.

(** C1 fails as stated: an item stamped 1000 hours in the future scores
    above 100. *)
Lemma calc_score_future_exceeds_100 :
  ¬ (0 ≤ calc_score iso_parse new_year_2024 future_item ≤ 100)%Z.
Proof. rewrite calc_score_future_item. lia. Qed.

Lemma calc_score_range_witness :
  (∀ t, iso_parse (pub_string recent_item) = Some (Aware t)
        → (t ≤ new_year_2024)%Z)
  ∧ (0 ≤ calc_score iso_parse new_year_2024 recent_item ≤ 100)%Z.
Proof.
  assert (∀ t, iso_parse (pub_string recent_item) = Some (Aware t)
               → (t ≤ new_year_2024)%Z) as Hpast.
  { intros t H. rewrite recent_item_parsed in H. injection H as <-.
    unfold new_year_2024. lia. }
  split; [exact Hpast|].
  exact (calc_score_range iso_parse new_year_2024 recent_item Hpast).
Defined.



Lemma eng_score_formula_witness :
  eng_score liked_item = Rmin 100 (sqrt 300 * 2)
  ∧ eng_score undated_item = 10%R.
Proof.
  split.
  - apply (eng_score_formula iso_parse new_year_2024 liked_item). simpl. lia.
  - by apply (eng_score_formula iso_parse new_year_2024 undated_item).
Defined.

Lemma calc_score_parse_failure_witness :
  iso_parse (pub_string undated_item) = None
  ∧ time_score iso_parse new_year_2024 undated_item = 50%R
  ∧ calc_score iso_parse new_year_2024 undated_item = 26%Z.
Proof.
  assert (iso_parse (pub_string undated_item) = None) as H by reflexivity.
  destruct (calc_score_parse_failure iso_parse new_year_2024 undated_item H)
    as (Ht & Hs & _).
  split; [exact H|]. split; [exact Ht|].
  rewrite Hs. change (eng_score undated_item) with 10%R.
  replace (src_score undated_item) with 30%R
    by (symmetry; apply (fetched_src_score "" "" "" "")).
  replace (bonus undated_item) with 10%Z by reflexivity.
  apply py_round_unique. lra.
Defined.

(** ** Deduplication *)

Lemma dedup_loop_acc (seen : gset string) (unique l : list item) :
  dedup_loop seen unique l = unique ++ dedup_loop seen [] l.
Proof.
  revert seen unique. induction l as [|it l IH]; intros seen unique; simpl.
  - by rewrite app_nil_r.
  - case_decide; [|done].
    rewrite (IH _ (unique ++ [it])), (IH _ ([] ++ [it])).
    by rewrite <- app_assoc.
Qed.

Lemma dedup_loop_cons (seen : gset string) (it : item) (l : list item) :
  dedup_loop seen [] (it :: l)
  = if decide (url it ∉ seen)
    then it :: dedup_loop ({[url it]} ∪ seen) [] l
    else dedup_loop seen [] l.
Proof. simpl. case_decide; [|done]. by rewrite dedup_loop_acc. Qed.

Lemma dedup_loop_sublist (seen : gset string) (l : list item) :
  dedup_loop seen [] l `sublist_of` l.
Proof.
  revert seen. induction l as [|it l IH]; intros seen; [done|].
  rewrite dedup_loop_cons. case_decide.
  - by apply sublist_skip.
  - by apply sublist_cons.
Qed.

Lemma dedup_loop_filter (seen : gset string) (l : list item) (u : string) :
  filter (λ it, url it = u) (dedup_loop seen [] l)
  = if decide (u ∈ seen) then [] else take 1 (filter (λ it, url it = u) l).
Proof.
  revert seen. induction l as [|it l IH]; intros seen.
  - simpl. by case_decide.
  - rewrite dedup_loop_cons, (filter_cons _ it l).
    destruct (decide (url it ∉ seen)) as [Hnew|Hold].
    + rewrite filter_cons, IH. destruct (decide (url it = u)) as [<-|Hne].
      * destruct (decide (url it ∈ {[url it]} ∪ seen)) as [_|Hn].
        -- by destruct (decide (url it ∈ seen)).
        -- exfalso. by apply Hn, elem_of_union_l, elem_of_singleton.
      * destruct (decide (u ∈ seen)) as [Hs|Hs],
          (decide (u ∈ {[url it]} ∪ seen)) as [Hin|Hn]; try done; exfalso.
        -- by apply Hn, elem_of_union_r.
        -- apply elem_of_union in Hin as [Hin|Hin]; [|done].
           by apply elem_of_singleton in Hin.
    + rewrite IH. apply dec_stable in Hold.
      destruct (decide (url it = u)) as [<-|Hne]; [|done].
      by destruct (decide (url it ∈ seen)).
Qed.

Lemma dedup_loop_NoDup (seen : gset string) (l : list item) :
  NoDup (url <$> dedup_loop seen [] l)
  ∧ ∀ it, it ∈ dedup_loop seen [] l → url it ∉ seen.
Proof.
  revert seen. induction l as [|it l IH]; intros seen.
  - simpl. split; [constructor | set_solver].
  - rewrite dedup_loop_cons. case_decide as Hnew; [|apply IH].
    destruct (IH ({[url it]} ∪ seen)) as [Hnd Hout]. split.
    + rewrite fmap_cons. constructor; [|done].
      intros Hin. apply list_elem_of_fmap in Hin as (it' & Heq & Hin).
      apply Hout in Hin. by apply Hin, elem_of_union_l, elem_of_singleton.
    + intros it' Hin. apply elem_of_cons in Hin as [->|Hin]; [done|].
      apply Hout in Hin. intros Hs. by apply Hin, elem_of_union_r.
Qed.

(** The first element satisfying [P] heads the filtered list. *)
Lemma filter_first {A} (P : A → Prop) `{!∀ x, Decision (P x)}
    (l : list A) (i : nat) (x : A) :
  l !! i = Some x → P x →
  (∀ j y, (j < i)%nat → l !! j = Some y → ¬ P y) →
  take 1 (filter P l) = [x].
Proof.
  revert i. induction l as [|a l IH]; intros i Hi HP Hbefore; [done|].
  rewrite filter_cons. destruct i as [|i]; simpl in Hi.
  - injection Hi as ->. by rewrite decide_True.
  - rewrite decide_False by (apply (Hbefore 0%nat); [lia | done]).
    apply (IH i); [done | done |].
    intros j y Hj Hy. apply (Hbefore (S j)); [lia | done].
Qed.

(** C3: deduplication keeps, for every url, exactly the first item of the
    list bearing it, drops the later ones, and leaves the kept items in
    their input order. *)
Theorem dedup_keeps_first (all_news : list item) :
  dedup all_news `sublist_of` all_news
  ∧ (∀ u, filter (λ it, url it = u) (dedup all_news)
          = take 1 (filter (λ it, url it = u) all_news))
  ∧ (∀ i it, all_news !! i = Some it →
       (∀ j it', (j < i)%nat → all_news !! j = Some it' → url it' ≠ url it) →
       it ∈ dedup all_news)
  ∧ NoDup (url <$> dedup all_news).
Proof.
  assert (∀ u, filter (λ it, url it = u) (dedup all_news)
               = take 1 (filter (λ it, url it = u) all_news)) as Hfilter.
  { intros u. unfold dedup. rewrite dedup_loop_filter.
    by rewrite decide_False by set_solver. }
  split; [apply dedup_loop_sublist|]. split; [done|]. split.
  - intros i it Hi Hfirst.
    assert (it ∈ filter (λ it', url it' = url it) (dedup all_news)) as Hin.
    { rewrite Hfilter, (filter_first _ all_news i it); [set_solver|done..]. }
    by apply list_elem_of_filter in Hin as [_ ?].
  - apply dedup_loop_NoDup.
Qed.

(** ** Sorting and truncation *)

Lemma insert_desc_perm (x : item) (l : list item) : insert_desc x l ≡ₚ x :: l.
Proof.
  induction l as [|y l IH]; simpl; [done|].
  case_decide; [|done]. rewrite IH. apply Permutation_swap.
Qed.

Lemma sort_desc_perm (l : list item) : sort_desc l ≡ₚ l.
Proof.
  induction l as [|x l IH]; simpl; [done|].
  by rewrite insert_desc_perm, IH.
Qed.

Lemma insert_desc_sorted (x : item) (l : list item) :
  StronglySorted key_ge l → StronglySorted key_ge (insert_desc x l).
Proof.
  induction 1 as [|y l Hs IH Hy]; simpl.
  - repeat constructor.
  - case_decide as Hlt.
    + constructor; [done|]. rewrite insert_desc_perm.
      constructor; [unfold key_ge; lia | done].
    + constructor; [by constructor|]. constructor; [unfold key_ge; lia|].
      eapply Forall_impl; [exact Hy|]. unfold key_ge. intros z Hz. lia.
Qed.

Lemma sort_desc_sorted (l : list item) : StronglySorted key_ge (sort_desc l).
Proof.
  induction l as [|x l IH]; simpl; [constructor | by apply insert_desc_sorted].
Qed.

Lemma sorted_lookup (l : list item) (i j : nat) (x y : item) :
  StronglySorted key_ge l → (i ≤ j)%nat →
  l !! i = Some x → l !! j = Some y → key_ge x y.
Proof.
  intros Hs. revert i j. induction Hs as [|a l Hs IH Ha]; intros i j Hij Hi Hj.
  - done.
  - destruct i as [|i], j as [|j]; simpl in *; try lia.
    + injection Hi as <-. injection Hj as <-. unfold key_ge. lia.
    + injection Hi as <-. rewrite Forall_forall in Ha.
      apply Ha. by eapply list_elem_of_lookup_2.
    + apply (IH i j); [lia | done | done].
Qed.

(** Inserting moves [x] only past items of a strictly greater key, so the
    items selected by a predicate that fixes the key keep their order. *)
Lemma insert_desc_filter (P : item → Prop) `{!∀ x, Decision (P x)}
    (x : item) (l : list item) :
  (∀ a b, P a → P b → sort_key a = sort_key b) →
  filter P (insert_desc x l) = filter P (x :: l).
Proof.
  intros Hkey. induction l as [|y l IH]; simpl; [done|].
  case_decide as Hlt; [|done].
  rewrite (filter_cons _ y), IH, !(filter_cons _ x), !(filter_cons _ y).
  destruct (decide (P x)) as [Hx|], (decide (P y)) as [Hy|]; try done.
  specialize (Hkey x y Hx Hy). lia.
Qed.

Lemma sort_desc_filter (P : item → Prop) `{!∀ x, Decision (P x)}
    (l : list item) :
  (∀ a b, P a → P b → sort_key a = sort_key b) →
  filter P (sort_desc l) = filter P l.
Proof.
  intros Hkey. induction l as [|x l IH]; simpl; [done|].
  rewrite insert_desc_filter by done. by rewrite !filter_cons, IH.
Qed.

Lemma filter_take_prefix {A} (P : A → Prop) `{!∀ x, Decision (P x)}
    (n : nat) (l : list A) :
  filter P (take n l) `prefix_of` filter P l.
Proof.
  rewrite <- (take_drop n l) at 2. rewrite filter_app. by apply prefix_app_r.
Qed.

(** The contract of the sort followed by the truncation [[:100]]. *)
Lemma sort_truncate_spec (unique : list item) :
  let out := take 100 (sort_desc unique) in
  (length out ≤ 100)%nat
  ∧ (∀ i j x y, (i ≤ j)%nat → out !! i = Some x → out !! j = Some y →
       (sort_key y ≤ sort_key x)%Z)
  ∧ (∀ s, filter (λ it, priorityScore it = Some s) out
          `prefix_of` filter (λ it, priorityScore it = Some s) unique)
  ∧ (∃ rest, out ++ rest ≡ₚ unique).
Proof.
  intros out. unfold out. split; [rewrite length_take; lia|]. split; [|split].
  - intros i j x y Hij Hi Hj.
    apply lookup_take_Some in Hi as [Hi _], Hj as [Hj _].
    exact (sorted_lookup _ i j x y (sort_desc_sorted unique) Hij Hi Hj).
  - intros s.
    rewrite <- (sort_desc_filter (λ it, priorityScore it = Some s) unique).
    + apply filter_take_prefix.
    + intros a b Ha Hb. unfold sort_key. by rewrite Ha, Hb.
  - exists (drop 100 (sort_desc unique)).
    by rewrite take_drop, sort_desc_perm.
Qed.

Section AggregatorFacts.
Variable fromisoformat : string → option datetime.
Variable clock : nat → Z.

Lemma score_loop_scored (start : nat) (unique : list item) :
  Forall (λ it, priorityScore it = Some (sort_key it))
         (score_loop fromisoformat clock start unique).
Proof.
  revert start. induction unique as [|it l IH]; intros start; simpl;
    constructor; [done | apply IH].
Qed.

Lemma score_loop_lookup (start : nat) (unique : list item) (i : nat) :
  score_loop fromisoformat clock start unique !! i
  = (λ it, set_priorityScore
             (calc_score fromisoformat (clock (start + i)) it) it)
    <$> unique !! i.
Proof.
  revert start i. induction unique as [|it l IH]; intros start i; [done|].
  destruct i as [|i]; simpl.
  - by rewrite Nat.add_0_r.
  - rewrite IH. by rewrite Nat.add_succ_r.
Qed.

(** C4: the [news] sequence of the snapshot is the scored list sorted by
    descending [priorityScore], stably, and cut to its first 100 items: it
    has [min(100, n)] items, is non-increasing in [priorityScore], lists the
    items of each score in the order they had after deduplication and
    scoring, and leaves out only items that score no more than every item
    it keeps. *)
Theorem main_news_sorted (newsapi gnews : list item) :
  let scored := score_loop fromisoformat clock 0 (dedup (newsapi ++ gnews)) in
  let out := news (main fromisoformat clock newsapi gnews) in
  (length out ≤ 100)%nat
  ∧ (∀ i j x y, (i ≤ j)%nat → out !! i = Some x → out !! j = Some y →
       ∃ sx sy, priorityScore x = Some sx ∧ priorityScore y = Some sy
                ∧ (sy ≤ sx)%Z)
  ∧ (∀ s, filter (λ it, priorityScore it = Some s) out
          `prefix_of` filter (λ it, priorityScore it = Some s) scored)
  ∧ length out = Nat.min 100 (length scored)
  ∧ (∃ rest, out ++ rest ≡ₚ scored
             ∧ ∀ x y, x ∈ out → y ∈ rest → (sort_key y ≤ sort_key x)%Z)
  ∧ (∃ sorted,
       sorted ≡ₚ scored
       ∧ (∀ i j x y, (i ≤ j)%nat →
            sorted !! i = Some x → sorted !! j = Some y →
            (sort_key y ≤ sort_key x)%Z)
       ∧ (∀ s, filter (λ it, priorityScore it = Some s) sorted
               = filter (λ it, priorityScore it = Some s) scored)
       ∧ out = take 100 sorted).
Proof.
  intros scored out.
  destruct (sort_truncate_spec scored) as (Hlen & Hsorted & Hstable & Hperm).
  change (take 100 (sort_desc scored)) with out in *.
  split; [done|]. split; [|split; [done|]].
  - intros i j x y Hij Hi Hj.
    assert (∀ k z, out !! k = Some z → priorityScore z = Some (sort_key z))
      as Hscored.
    { intros k z Hk. destruct Hperm as [rest Hperm].
      pose proof (score_loop_scored 0 (dedup (newsapi ++ gnews))) as Hall.
      fold scored in Hall. rewrite <- Hperm, Forall_app in Hall.
      destruct Hall as [Hall _]. rewrite Forall_forall in Hall.
      apply Hall. by eapply list_elem_of_lookup_2. }
    exists (sort_key x), (sort_key y).
    split; [by eapply Hscored|]. split; [by eapply Hscored|].
    by eapply Hsorted.
  - split; [|split].
    + unfold out. simpl news. fold scored.
      by rewrite length_take, (Permutation_length (sort_desc_perm scored)).
    + exists (drop 100 (sort_desc scored)). split.
      * unfold out. simpl news. fold scored.
        by rewrite take_drop, sort_desc_perm.
      * intros x y Hx Hy.
        apply list_elem_of_lookup in Hx as [i Hi], Hy as [j Hj].
        apply lookup_take_Some in Hi as [Hi Hlt]. rewrite lookup_drop in Hj.
        apply (sorted_lookup (sort_desc scored) i (100 + j) x y);
          [apply sort_desc_sorted | lia | done | done].
    + exists (sort_desc scored). split; [apply sort_desc_perm|].
      split; [|split; [|done]].
      * intros i j x y Hij Hi Hj.
        exact (sorted_lookup _ i j x y (sort_desc_sorted scored) Hij Hi Hj).
      * intros s. apply sort_desc_filter.
        intros a b Ha Hb. unfold sort_key. by rewrite Ha, Hb.
Qed.

(** C9: the [totalCount] of the snapshot is the length of its [news]
    sequence, the items left after deduplication and truncation. *)
Theorem main_totalCount (newsapi gnews : list item) :
  totalCount (main fromisoformat clock newsapi gnews)
  = length (news (main fromisoformat clock newsapi gnews))
  ∧ news (main fromisoformat clock newsapi gnews)
    = take 100 (sort_desc (score_loop fromisoformat clock 0
                             (dedup (newsapi ++ gnews)))).
Proof. done. Qed.
End AggregatorFacts.

(** ** The classifier and the aggregator on concrete inputs *)

Example detect_company_tesla_waymo :
  detect_company ascii_lower "Waymo and Tesla expand robotaxi service" = "tesla".
Proof. reflexivity. Qed.

Example calculate_importance_examples :
  calculate_importance ascii_lower "Tesla plans a test" "official launch" = "high"
  ∧ calculate_importance ascii_lower "Tesla plans a test" "" = "medium"
  ∧ calculate_importance ascii_lower "Robotaxi news" "" = "low".
Proof. by vm_compute. Qed.

Example extract_tags_spec_example :
  extract_tags ascii_lower "Tesla launches FSD in California"
  = ["FSD"; "Commercial"; "USA"].
Proof. reflexivity. Qed.

(** All seven patterns match: the slice [[:5]] cuts ["Japan"] and ["USA"]. *)
Example extract_tags_truncated :
  extract_tags ascii_lower
    "FSD level 4 launch deal: China, Japan and the US"
  = ["FSD"; "Level4"; "Commercial"; "Partnership"; "China"].
Proof. reflexivity. Qed.

Example item_A_classified :
  company item_A = "tesla" ∧ importance item_A = Some "high"
  ∧ tags item_A = ["FSD"; "Commercial"; "USA"].
Proof. by vm_compute. Qed.

Example dedup_example :
  url <$> dedup [item_A; recent_item; item_B; old_item; recent_item]
  = ["u1"; "https://example.org/b"; "https://example.org/c"]
  ∧ title <$> dedup [item_A; item_B]
    = ["Tesla launches FSD in California"].
Proof. by vm_compute. Qed.

Example sort_desc_example :
  url <$> sort_desc [scored_item "a" 5; scored_item "b" 9; scored_item "c" 5;
                     scored_item "d" 7; scored_item "e" 9]
  = ["b"; "e"; "d"; "a"; "c"].
Proof. by vm_compute. Qed.

(** The end-to-end example: one item with url [u1] survives, the first. *)
Example main_end_to_end :
  title <$> news (main iso_parse (λ _, new_year_2024) [item_A] [item_B])
  = ["Tesla launches FSD in California"]
  ∧ totalCount (main iso_parse (λ _, new_year_2024) [item_A] [item_B]) = 1%nat.
Proof. split; reflexivity. Qed.

Lemma detect_company_first_declared_witness :
  detect_company ascii_lower "Waymo and Tesla expand robotaxi service" = "tesla"
  ∧ detect_company ascii_lower "Robotaxi news" = "other"
  ∧ detect_company ascii_lower "Waymo and Tesla expand robotaxi service"
    ≠ "waymo".
Proof.
  destruct (detect_company_first_declared ascii_lower
              "Waymo and Tesla expand robotaxi service") as (Hfirst & _ & Hlater).
  destruct (detect_company_first_declared ascii_lower "Robotaxi news")
    as (_ & Hother & _).
  split; [|split].
  - apply (Hfirst [] "tesla" ["tesla"; "fsd"; "autopilot"; "elon musk"]
             (tail COMPANIES)); [reflexivity | | constructor].
    apply any_in_spec. reflexivity.
  - apply Hother, Forall_not_AnyIn. reflexivity.
  - apply (Hlater 0%nat 1%nat "tesla" ["tesla"; "fsd"; "autopilot"; "elon musk"]
             "waymo" ["waymo"]); [reflexivity | reflexivity | lia | |];
      apply any_in_spec; reflexivity.
Defined.

Lemma extract_tags_us_USA_witness :
  Substring "us" (ascii_lower "Autonomous trucks reach Texas")
  ∧ (length (matching (ascii_lower "Autonomous trucks reach Texas")
               (take 6 patterns)) ≤ 4)%nat
  ∧ "USA" ∈ extract_tags ascii_lower "Autonomous trucks reach Texas".
Proof.
  assert (Substring "us" (ascii_lower "Autonomous trucks reach Texas")) as Hus
    by (apply str_in_spec; reflexivity).
  assert (length (matching (ascii_lower "Autonomous trucks reach Texas")
                    (take 6 patterns)) ≤ 4)%nat as Hlen
    by (vm_compute; lia).
  split; [exact Hus|]. split; [exact Hlen|].
  exact (extract_tags_us_USA ascii_lower "Autonomous trucks reach Texas"
           Hus Hlen).
Defined.

(** C10 fails on the example it gives: a title with the word "launches"
    need not contain ["us"], and then it gets no ["USA"] tag. *)
Lemma launches_title_without_USA :
  Substring "launches" (ascii_lower "Waymo launches robotaxi service")
  ∧ (length (matching (ascii_lower "Waymo launches robotaxi service")
               (take 6 patterns)) ≤ 4)%nat
  ∧ ¬ Substring "us" (ascii_lower "Waymo launches robotaxi service")
  ∧ "USA" ∉ extract_tags ascii_lower "Waymo launches robotaxi service".
Proof.
  split; [apply str_in_spec; reflexivity|].
  split; [vm_compute; lia|]. split.
  - rewrite <- str_in_spec. by vm_compute.
  - apply (bool_decide_unpack _). by vm_compute.
Qed.

(** * Further properties of the classifier *)

Lemma patterns_tags_NoDup : NoDup patterns.*1.
Proof. apply (bool_decide_unpack _). by vm_compute. Qed.

Lemma matching_sublist (tl : string) (table : list (string * list string)) :
  matching tl table `sublist_of` table.
Proof. apply sublist_filter. Qed.

Lemma matching_app (tl : string) (t1 t2 : list (string * list string)) :
  matching tl (t1 ++ t2) = matching tl t1 ++ matching tl t2.
Proof. apply filter_app. Qed.

(** In a duplicate-free list the element after [pre] lies in the first [n]
    elements exactly when [pre] is shorter than [n]. *)
Lemma elem_of_take_middle {A} (n : nat) (pre post : list A) (x : A) :
  NoDup (pre ++ x :: post) →
  x ∈ take n (pre ++ x :: post) ↔ (length pre < n)%nat.
Proof.
  intros Hnd. split.
  - intros Hin. apply list_elem_of_lookup in Hin as [j Hj].
    apply lookup_take_Some in Hj as [Hj Hlt].
    assert (j = length pre); [|lia].
    eapply NoDup_lookup; [exact Hnd | exact Hj |].
    by rewrite list_lookup_middle.
  - intros Hlt. apply list_elem_of_lookup. exists (length pre).
    rewrite lookup_take_lt by done. by rewrite list_lookup_middle.
Qed.

Section ClassifierMore.
Variable lower : string → string.

(** X1: [extract_tags] returns at most five tags, without repetition, in
    the declaration order of the patterns. *)
Theorem extract_tags_bounded (title : string) :
  (length (extract_tags lower title) ≤ 5)%nat
  ∧ extract_tags lower title `sublist_of` patterns.*1
  ∧ NoDup (extract_tags lower title).
Proof.
  unfold extract_tags. cbv zeta. rewrite extract_tags_loop_matching.
  assert (take 5 (matching (lower title) patterns).*1 `sublist_of` patterns.*1)
    as Hsub.
  { etrans; [apply sublist_take|]. apply fmap_sublist, matching_sublist. }
  split; [rewrite length_take; lia|]. split; [done|].
  eapply sublist_NoDup; [apply patterns_tags_NoDup | exact Hsub].
Qed.

(** X2: the tag of a pattern is returned exactly when one of its keywords
    occurs in the lower-cased title and fewer than five of the patterns
    declared before it match. *)
Theorem extract_tags_member (title : string) (i : nat) (tag : string)
    (kws : list string) :
  patterns !! i = Some (tag, kws) →
  tag ∈ extract_tags lower title
  ↔ AnyIn kws (lower title)
    ∧ (length (matching (lower title) (take i patterns)) < 5)%nat.
Proof.
  intros Hi. unfold extract_tags. cbv zeta.
  rewrite extract_tags_loop_matching.
  pose proof (take_drop_middle patterns i (tag, kws) Hi) as Hsplit.
  pose proof patterns_tags_NoDup as Hnd.
  set (tl := lower title). rewrite <- Hsplit at 1. rewrite <- Hsplit in Hnd.
  rewrite matching_app. unfold matching at 2. rewrite filter_cons.
  fold (matching tl (drop (S i) patterns)).
  rewrite fmap_app, fmap_cons in Hnd.
  destruct (decide (any_in (tag, kws).2 tl = true)) as [Hm|Hm]; simpl in Hm.
  - rewrite fmap_app, fmap_cons. simpl.
    rewrite elem_of_take_middle.
    + rewrite length_fmap. apply any_in_spec in Hm. tauto.
    + eapply sublist_NoDup; [exact Hnd|].
      apply sublist_app; [apply fmap_sublist, matching_sublist|].
      apply sublist_skip, fmap_sublist, matching_sublist.
  - split.
    + intros Hin. exfalso.
      apply (sublist_subseteq _ _ (sublist_take _ _)) in Hin.
      apply NoDup_app in Hnd as (_ & Hpre & Hpost).
      apply NoDup_cons in Hpost as [Hpost _].
      apply list_elem_of_fmap in Hin as ([tag' kws'] & Heq & Hin).
      simpl in Heq. subst tag'.
      apply elem_of_app in Hin as [Hin|Hin].
      * apply (Hpre tag); [|left].
        apply list_elem_of_fmap. exists (tag, kws').
        split; [done|]. by eapply list_elem_of_filter.
      * apply Hpost. apply list_elem_of_fmap. exists (tag, kws').
        split; [done|]. by eapply list_elem_of_filter.
    + intros [Hany _]. apply any_in_spec in Hany. congruence.
Qed.

(** X3: [detect_company] returns ["other"] or a key of [COMPANIES], and
    ["other"] exactly when no company has a keyword in the lower-cased
    text. *)
Theorem detect_company_range (text : string) :
  detect_company lower text ∈ "other" :: COMPANIES.*1
  ∧ (detect_company lower text = "other"
     ↔ Forall (λ e, ¬ AnyIn e.2 (lower text)) COMPANIES).
Proof.
  unfold detect_company. cbv zeta. set (tl := lower text).
  assert (∀ table, detect_company_loop tl table ∈ "other" :: table.*1) as Hin.
  { induction table as [|[c kws] table IH]; simpl; [left|].
    destruct (any_in kws tl); [right; left|].
    apply elem_of_cons in IH as [->|IH]; [left | by do 2 right]. }
  split; [apply Hin|]. split; [|apply detect_company_loop_none].
  intros Hother. apply Forall_forall. intros [c kws] Hc Hm. simpl in Hm.
  apply list_elem_of_lookup in Hc as [i Hi].
  destruct (detect_company_loop_bound tl COMPANIES i c kws Hi Hm)
    as (k & c' & kws' & _ & Hk & Hr).
  rewrite Hother in Hr. subst c'.
  assert ("other" ∈ COMPANIES.*1) as Habs.
  { apply list_elem_of_fmap. exists ("other", kws'). split; [done|].
    by eapply list_elem_of_lookup_2. }
  revert Habs. apply (bool_decide_unpack _). by vm_compute.
Qed.
End ClassifierMore.

(** * Further properties of the scorer *)

Lemma py_round_lt (x y : R) : (x + 1 < y)%R → (py_round x < py_round y)%Z.
Proof.
  intros Hxy. pose proof (py_round_near x) as Hx.
  pose proof (py_round_near y) as Hy.
  apply lt_IZR. lra.
Qed.

Lemma py_round_above (x : R) (n : Z) :
  (IZR n - 1 / 2 < x)%R → (n ≤ py_round x)%Z.
Proof.
  intros Hx. pose proof (py_round_near x) as Hn.
  assert (IZR n < IZR (py_round x + 1))%R as H
    by (rewrite plus_IZR; lra).
  apply lt_IZR in H. lia.
Qed.

Lemma py_round_below (x : R) (n : Z) :
  (x < IZR n + 1 / 2)%R → (py_round x ≤ n)%Z.
Proof.
  intros Hx. pose proof (py_round_near x) as Hn.
  assert (IZR (py_round x) < IZR (n + 1))%R as H
    by (rewrite plus_IZR; lra).
  apply lt_IZR in H. lia.
Qed.

Lemma sqrt_IZR_ge_1 (t : Z) : (0 < t)%Z → (1 <= sqrt (IZR t))%R.
Proof.
  intros Ht. rewrite <- sqrt_1. apply sqrt_le_1_alt.
  apply (IZR_le 1 t). lia.
Qed.

Lemma eng_score_ge_2 (it : item) : (2 <= eng_score it)%R.
Proof.
  unfold eng_score. cbv zeta. case_decide as Ht; [|lra].
  assert (1 <= sqrt (IZR (eng_total it)))%R
    by (apply sqrt_IZR_ge_1; lia).
  unfold Rmin. destruct (Rle_dec _ _); lra.
Qed.

Lemma sqrt_2500 : sqrt 2500 = 50%R.
Proof. replace 2500%R with (50 * 50)%R by lra. apply sqrt_square. lra. Qed.

Section ScorerMore.
Variable fromisoformat : string → option datetime.

(** X4: whatever the item and the clock, the score is at least 5: the
    engagement component is at least 2 and the source component at least
    21. *)
Theorem calc_score_ge_5 (now : Z) (it : item) :
  (5 ≤ calc_score fromisoformat now it)%Z.
Proof.
  unfold calc_score. apply py_round_above.
  pose proof (time_score_nonneg fromisoformat now it).
  pose proof (eng_score_ge_2 it). pose proof (src_score_range it).
  pose proof (bonus_range it). lra.
Qed.

(** X5: the engagement component reaches its cap of 100 exactly from
    [total = 2500] on. *)
Theorem eng_score_cap (it : item) :
  eng_score it = 100%R ↔ (2500 ≤ eng_total it)%Z.
Proof.
  unfold eng_score. cbv zeta. split.
  - intros H. case_decide as Ht; [|lra].
    destruct (Z.le_gt_cases 2500 (eng_total it)) as [|Hlt]; [done|exfalso].
    assert (sqrt (IZR (eng_total it)) < sqrt 2500)%R as Hs.
    { apply sqrt_lt_1_alt. split; [apply (IZR_le 0); lia|].
      apply (IZR_lt _ 2500). lia. }
    rewrite sqrt_2500 in Hs. revert H. unfold Rmin.
    destruct (Rle_dec _ _); lra.
  - intros Ht. rewrite decide_True by lia.
    assert (sqrt 2500 <= sqrt (IZR (eng_total it)))%R as Hs
      by (apply sqrt_le_1_alt; by apply (IZR_le 2500)).
    rewrite sqrt_2500 in Hs. unfold Rmin. destruct (Rle_dec _ _); lra.
Qed.

(** X6: among items with a positive total the engagement component grows
    with the total. *)
Theorem eng_score_monotone_positive (it1 it2 : item) :
  (0 < eng_total it1)%Z → (eng_total it1 ≤ eng_total it2)%Z →
  (eng_score it1 <= eng_score it2)%R.
Proof.
  intros Hpos Hle. unfold eng_score. cbv zeta.
  rewrite !decide_True by lia.
  assert (sqrt (IZR (eng_total it1)) <= sqrt (IZR (eng_total it2)))%R
    by (apply sqrt_le_1_alt; by apply IZR_le).
  unfold Rmin. repeat destruct (Rle_dec _ _); lra.
Qed.

(** X7: an item with a total between 1 and 12 scores strictly less than
    the same item with no engagement at all, whose component is the
    constant 10. *)
Theorem calc_score_small_engagement_dip (now : Z) (it0 it1 : item) :
  publishedAt it1 = publishedAt it0 →
  source it1 = source it0 →
  importance it1 = importance it0 →
  (eng_total it0 ≤ 0)%Z →
  (0 < eng_total it1 ≤ 12)%Z →
  (calc_score fromisoformat now it1 < calc_score fromisoformat now it0)%Z.
Proof.
  intros Hp Hs Hi H0 H1. unfold calc_score. apply py_round_lt.
  assert (time_score fromisoformat now it1 = time_score fromisoformat now it0)
    as -> by (unfold time_score, try_hours, pub_string; by rewrite Hp).
  assert (src_score it1 = src_score it0) as ->
    by (unfold src_score; by rewrite Hs).
  assert (bonus it1 = bonus it0) as -> by (unfold bonus; by rewrite Hi).
  assert (eng_score it0 = 10%R) as ->
    by (unfold eng_score; cbv zeta; by rewrite decide_False by lia).
  assert (eng_score it1 <= 7)%R; [|lra].
  unfold eng_score. cbv zeta. rewrite decide_True by lia.
  assert (sqrt (IZR (eng_total it1)) <= 3.5)%R as Hsq.
  { rewrite <- (sqrt_square 3.5) by lra. apply sqrt_le_1_alt.
    assert (IZR (eng_total it1) <= 12)%R by (apply (IZR_le _ 12); lia). lra. }
  unfold Rmin. destruct (Rle_dec _ _); lra.
Qed.

Lemma src_weight_unknown (s : string) :
  s ∉ ["official"; "news"; "x"; "reddit"] → src_weights !! s = None.
Proof.
  intros Hs. unfold src_weights.
  rewrite !lookup_insert_ne, lookup_singleton_ne; [done|..];
    intros <-; apply Hs; repeat constructor.
Qed.

Lemma imp_bonus_unknown (s : string) :
  s ∉ ["high"; "medium"; "low"] → imp_bonus !! s = None.
Proof.
  intros Hs. unfold imp_bonus.
  rewrite !lookup_insert_ne, lookup_singleton_ne; [done|..];
    intros <-; apply Hs; repeat constructor.
Qed.

Lemma calc_score_with_source (now : Z) (s : option string) (it : item) :
  calc_score fromisoformat now (with_source s it)
  = py_round (time_score fromisoformat now it * 0.3 + eng_score it * 0.35
              + default 1 (src_weights !! default "news" s) * 30 * 0.2
              + IZR (bonus it) * 0.15)%R.
Proof. reflexivity. Qed.

(** X8: with everything else fixed the score orders the sources
    reddit, x, news, official; a missing or unknown source scores like
    ["news"]. *)
Theorem calc_score_source_order (now : Z) (it : item) :
  let sc s := calc_score fromisoformat now (with_source s it) in
  (sc (Some "reddit") ≤ sc (Some "x"))%Z
  ∧ (sc (Some "x") ≤ sc (Some "news"))%Z
  ∧ (sc (Some "news") ≤ sc (Some "official"))%Z
  ∧ sc None = sc (Some "news")
  ∧ (∀ s, s ∉ ["official"; "news"; "x"; "reddit"] →
       sc (Some s) = sc (Some "news")).
Proof.
  intros sc. unfold sc. rewrite !calc_score_with_source. simpl.
  replace (src_weights !! "reddit") with (Some 0.7%R) by reflexivity.
  replace (src_weights !! "x") with (Some 0.8%R) by reflexivity.
  replace (src_weights !! "news") with (Some 1%R) by reflexivity.
  replace (src_weights !! "official") with (Some 1.5%R) by reflexivity.
  simpl. repeat split; try (apply py_round_mono; lra).
  intros s Hs. rewrite calc_score_with_source. simpl.
  by rewrite (src_weight_unknown s Hs).
Qed.

Lemma calc_score_with_importance (now : Z) (i : option string) (it : item) :
  calc_score fromisoformat now (with_importance i it)
  = py_round (time_score fromisoformat now it * 0.3 + eng_score it * 0.35
              + src_score it * 0.2
              + IZR (default 0%Z (imp_bonus !! default "low" i)) * 0.15)%R.
Proof. reflexivity. Qed.

(** X9: with everything else fixed the score orders the importance levels
    low, medium, high; a missing or unknown importance scores like
    ["low"]. *)
Theorem calc_score_importance_order (now : Z) (it : item) :
  let sc i := calc_score fromisoformat now (with_importance i it) in
  (sc (Some "low") ≤ sc (Some "medium"))%Z
  ∧ (sc (Some "medium") ≤ sc (Some "high"))%Z
  ∧ sc None = sc (Some "low")
  ∧ (∀ i, i ∉ ["high"; "medium"; "low"] → sc (Some i) = sc (Some "low")).
Proof.
  intros sc. unfold sc. rewrite !calc_score_with_importance. simpl.
  replace (imp_bonus !! "low") with (Some 0%Z) by reflexivity.
  replace (imp_bonus !! "medium") with (Some 10%Z) by reflexivity.
  replace (imp_bonus !! "high") with (Some 20%Z) by reflexivity.
  simpl. repeat split; try (apply py_round_mono; lra).
  intros i Hi. rewrite calc_score_with_importance. simpl.
  by rewrite (imp_bonus_unknown i Hi).
Qed.
End ScorerMore.

(** * Further properties of the aggregator *)

Lemma dedup_filter (l : list item) (u : string) :
  filter (λ it, url it = u) (dedup l) = take 1 (filter (λ it, url it = u) l).
Proof.
  unfold dedup. rewrite dedup_loop_filter.
  destruct (decide (u ∈ (∅ : gset string))) as [Hin|]; [|done].
  by apply not_elem_of_empty in Hin.
Qed.

Lemma dedup_loop_app (seen : gset string) (a b : list item) :
  dedup_loop seen [] (a ++ b)
  = dedup_loop seen [] a
    ++ dedup_loop (list_to_set (url <$> a) ∪ seen) [] b.
Proof.
  revert seen. induction a as [|it a IH]; intros seen.
  - simpl. by rewrite (left_id_L ∅ (∪)).
  - rewrite <- app_comm_cons, !dedup_loop_cons, fmap_cons, list_to_set_cons.
    destruct (decide (url it ∉ seen)) as [Hnew|Hold].
    + rewrite IH, <- app_comm_cons. do 3 f_equal.
      apply set_eq. intros y. rewrite !elem_of_union. tauto.
    + rewrite IH. do 2 f_equal. apply dec_stable in Hold.
      apply set_eq. intros y. rewrite !elem_of_union, elem_of_singleton.
      split; [tauto|]. intros [[->|?]|?]; tauto.
Qed.

Lemma dedup_loop_seen_filter (s1 s2 : gset string) (l : list item) :
  dedup_loop (s1 ∪ s2) [] l
  = filter (λ it, url it ∉ s1) (dedup_loop s2 [] l).
Proof.
  revert s2. induction l as [|it l IH]; intros s2; [done|].
  rewrite !dedup_loop_cons.
  destruct (decide (url it ∉ s2)) as [H2|H2].
  - rewrite filter_cons.
    destruct (decide (url it ∉ s1)) as [H1|H1].
    + rewrite decide_True by (rewrite not_elem_of_union; done).
      rewrite <- IH. do 2 f_equal.
      apply set_eq. intros y. rewrite !elem_of_union. tauto.
    + apply dec_stable in H1.
      rewrite decide_False by (rewrite not_elem_of_union; tauto).
      rewrite <- IH. f_equal.
      apply set_eq. intros y. rewrite !elem_of_union, elem_of_singleton.
      split; [tauto|]. intros [?|[->|?]]; tauto.
  - rewrite decide_False by (rewrite not_elem_of_union; tauto). apply IH.
Qed.

Lemma dedup_loop_fixed (seen : gset string) (l : list item) :
  NoDup (url <$> l) → (∀ it, it ∈ l → url it ∉ seen) →
  dedup_loop seen [] l = l.
Proof.
  revert seen. induction l as [|it l IH]; intros seen Hnd Hout; [done|].
  rewrite fmap_cons in Hnd. apply NoDup_cons in Hnd as [Hit Hnd].
  rewrite dedup_loop_cons, decide_True by (apply Hout; left).
  f_equal. apply IH; [done|]. intros it' Hin.
  rewrite not_elem_of_union, not_elem_of_singleton. split.
  - intros Heq. apply Hit. rewrite <- Heq. by apply list_elem_of_fmap_2.
  - apply Hout. by right.
Qed.

Lemma dedup_url_elem (l : list item) (u : string) :
  u ∈ url <$> dedup l ↔ u ∈ url <$> l.
Proof.
  split.
  - intros Hin. apply list_elem_of_fmap in Hin as (it & -> & Hin).
    apply list_elem_of_fmap_2.
    by apply (sublist_subseteq _ _ (dedup_loop_sublist ∅ l)).
  - intros Hin. apply list_elem_of_fmap in Hin as (it & -> & Hin).
    assert (it ∈ filter (λ it', url it' = url it) l) as Hf
      by by apply list_elem_of_filter.
    destruct (filter (λ it', url it' = url it) l) as [|y k] eqn:E;
      [by apply elem_of_nil in Hf|].
    assert (y ∈ filter (λ it', url it' = url it) (dedup l)) as Hy
      by (rewrite dedup_filter, E; left).
    apply list_elem_of_filter in Hy as [<- Hy].
    by apply list_elem_of_fmap_2.
Qed.

(** X10: deduplication loses no url: the urls of the result are those of
    the input, each once, and the result is no longer than the input. *)
Theorem dedup_urls (all_news : list item) :
  (∀ u, u ∈ url <$> dedup all_news ↔ u ∈ url <$> all_news)
  ∧ NoDup (url <$> dedup all_news)
  ∧ (length (dedup all_news) ≤ length all_news)%nat.
Proof.
  split; [|split].
  - apply dedup_url_elem.
  - apply dedup_loop_NoDup.
  - apply sublist_length, dedup_loop_sublist.
Qed.

(** X11: deduplication changes nothing exactly when the urls of the input
    are pairwise distinct, so deduplicating twice is deduplicating once. *)
Theorem dedup_fixed_point (all_news : list item) :
  (dedup all_news = all_news ↔ NoDup (url <$> all_news))
  ∧ dedup (dedup all_news) = dedup all_news.
Proof.
  assert (∀ l, NoDup (url <$> l) → dedup l = l) as Hfix.
  { intros l Hnd. apply dedup_loop_fixed; [done|].
    intros it _. apply not_elem_of_empty. }
  split; [split|].
  - intros <-. apply dedup_loop_NoDup.
  - apply Hfix.
  - apply Hfix, dedup_loop_NoDup.
Qed.

(** X12: deduplicating two fetches together keeps the deduplicated first
    fetch whole, followed by the items of the deduplicated second fetch
    whose url the first fetch does not have. *)
Theorem dedup_app (newsapi gnews : list item) :
  dedup (newsapi ++ gnews)
  = dedup newsapi
    ++ filter (λ it, url it ∉ url <$> newsapi) (dedup gnews).
Proof.
  unfold dedup. rewrite dedup_loop_app, dedup_loop_seen_filter. f_equal.
  apply list_filter_iff. intros it. by rewrite elem_of_list_to_set.
Qed.

Section AggregatorMore.
Variable fromisoformat : string → option datetime.
Variable clock : nat → Z.

Lemma score_loop_length (start : nat) (unique : list item) :
  length (score_loop fromisoformat clock start unique) = length unique.
Proof.
  revert start. induction unique as [|it l IH]; intros start; [done|].
  simpl. by rewrite IH.
Qed.

Lemma score_loop_urls (start : nat) (unique : list item) :
  url <$> score_loop fromisoformat clock start unique = url <$> unique.
Proof.
  revert start. induction unique as [|it l IH]; intros start; [done|].
  simpl. by rewrite IH.
Qed.

Lemma score_loop_elem (start : nat) (unique : list item) (x : item) :
  x ∈ score_loop fromisoformat clock start unique →
  ∃ it k, it ∈ unique
          ∧ x = set_priorityScore (calc_score fromisoformat (clock k) it) it.
Proof.
  intros Hx. apply list_elem_of_lookup in Hx as [i Hi].
  rewrite score_loop_lookup in Hi.
  destruct (unique !! i) as [it|] eqn:E; [|done].
  injection Hi as <-. exists it, (start + i)%nat.
  split; [by eapply list_elem_of_lookup_2 | done].
Qed.

Lemma main_news_elem (newsapi gnews : list item) (x : item) :
  x ∈ news (main fromisoformat clock newsapi gnews) →
  x ∈ score_loop fromisoformat clock 0 (dedup (newsapi ++ gnews)).
Proof.
  intros Hx. simpl in Hx.
  apply (sublist_subseteq _ _ (sublist_take _ _)) in Hx.
  by rewrite sort_desc_perm in Hx.
Qed.

(** X13: the truncation drops only items that score no more than every
    item it keeps. *)
Theorem main_drops_lowest (newsapi gnews : list item) :
  ∃ dropped,
    news (main fromisoformat clock newsapi gnews) ++ dropped
    ≡ₚ score_loop fromisoformat clock 0 (dedup (newsapi ++ gnews))
    ∧ ∀ x y, x ∈ news (main fromisoformat clock newsapi gnews) →
             y ∈ dropped → (sort_key y ≤ sort_key x)%Z.
Proof.
  set (scored := score_loop fromisoformat clock 0 (dedup (newsapi ++ gnews))).
  exists (drop 100 (sort_desc scored)). simpl. fold scored. split.
  - by rewrite take_drop, sort_desc_perm.
  - intros x y Hx Hy.
    apply list_elem_of_lookup in Hx as [i Hi], Hy as [j Hj].
    apply lookup_take_Some in Hi as [Hi Hlt]. rewrite lookup_drop in Hj.
    apply (sorted_lookup (sort_desc scored) i (100 + j) x y);
      [apply sort_desc_sorted | lia | done | done].
Qed.

(** X14: [totalCount] is the number of distinct urls fetched, capped at
    100. *)
Theorem main_totalCount_distinct (newsapi gnews : list item) :
  totalCount (main fromisoformat clock newsapi gnews)
  = Nat.min 100 (size (list_to_set (url <$> newsapi ++ gnews) : gset string)).
Proof.
  change (totalCount (main fromisoformat clock newsapi gnews))
    with (length (take 100 (sort_desc (score_loop fromisoformat clock 0
                                         (dedup (newsapi ++ gnews)))))).
  rewrite length_take, (Permutation_length (sort_desc_perm _)).
  rewrite score_loop_length. f_equal.
  destruct (dedup_loop_NoDup ∅ (newsapi ++ gnews)) as [Hnd _].
  fold (dedup (newsapi ++ gnews)) in Hnd.
  rewrite <- (length_fmap url), <- (size_list_to_set (C:=gset string)) by done.
  f_equal. apply set_eq. intros u. rewrite !elem_of_list_to_set.
  apply dedup_url_elem.
Qed.

(** X15: the urls of the snapshot are pairwise distinct. *)
Theorem main_urls_NoDup (newsapi gnews : list item) :
  NoDup (url <$> news (main fromisoformat clock newsapi gnews)).
Proof.
  simpl. rewrite fmap_take.
  eapply sublist_NoDup; [|apply sublist_take].
  rewrite sort_desc_perm, score_loop_urls. apply dedup_loop_NoDup.
Qed.

(** X16: every item of the snapshot is the first fetched item bearing its
    url, NewsAPI before GNews, unchanged but for the score attached to it,
    which is [calc_score] of that item at some clock reading. *)
Theorem main_provenance (newsapi gnews : list item) (x : item) :
  x ∈ news (main fromisoformat clock newsapi gnews) →
  ∃ it k,
    take 1 (filter (λ i, url i = url x) (newsapi ++ gnews)) = [it]
    ∧ x = set_priorityScore (calc_score fromisoformat (clock k) it) it.
Proof.
  intros Hx. apply main_news_elem, score_loop_elem in Hx
    as (it & k & Hit & ->).
  exists it, k. split; [|done]. simpl.
  assert (it ∈ filter (λ i, url i = url it) (dedup (newsapi ++ gnews)))
    as Hf by by apply list_elem_of_filter.
  rewrite dedup_filter in Hf.
  destruct (filter (λ i, url i = url it) (newsapi ++ gnews)) as [|y l];
    [by apply elem_of_nil in Hf|].
  simpl in *. by apply list_elem_of_singleton in Hf as ->.
Qed.

(** X17: when at most 100 distinct urls were fetched, every fetched url
    is in the snapshot. *)
Theorem main_keeps_every_url (newsapi gnews : list item) (u : string) :
  (length (dedup (newsapi ++ gnews)) ≤ 100)%nat →
  u ∈ url <$> newsapi ++ gnews →
  u ∈ url <$> news (main fromisoformat clock newsapi gnews).
Proof.
  intros Hlen Hu. simpl.
  rewrite take_ge
    by (rewrite (Permutation_length (sort_desc_perm _)), score_loop_length;
        done).
  rewrite sort_desc_perm, score_loop_urls. by apply dedup_url_elem.
Qed.
End AggregatorMore.

(** * Properties of [generate_id] *)

Example md5_hexdigest_vectors :
  md5_hexdigest "" = "d41d8cd98f00b204e9800998ecf8427e"
  ∧ md5_hexdigest "abc" = "900150983cd24fb0d6963f7d28e17f72"
  ∧ md5_hexdigest
      "12345678901234567890123456789012345678901234567890123456789012345678901234567890"
    = "57edf4a22be3c955ac49da2e2107b67a".
Proof. by vm_compute. Qed.

Example generate_id_u1 : generate_id "u1" = "e4774cdda079".
Proof. by vm_compute. Qed.

Lemma md5_digest_length (msg : list Z) : length (md5_digest msg) = 16%nat.
Proof.
  unfold md5_digest. cbv zeta.
  by destruct (md5_blocks _ _ _) as [[[a b] c] d].
Qed.

Lemma hex_of_bytes_length (bs : list Z) :
  String.length (hex_of_bytes bs) = (2 * length bs)%nat.
Proof. induction bs as [|b bs IH]; simpl; [done | rewrite IH; lia]. Qed.

Lemma str_take_length (n : nat) (s : string) :
  String.length (str_take n s) = Nat.min n (String.length s).
Proof.
  revert s. induction n as [|n IH]; intros [|a s]; simpl; try done.
  by rewrite IH.
Qed.

Lemma hex_digit_is_hex (n : Z) : (0 ≤ n < 16)%Z → is_hex (hex_digit n) = true.
Proof.
  intros Hn.
  assert (n ∈ [0; 1; 2; 3; 4; 5; 6; 7; 8; 9; 10; 11; 12; 13; 14; 15]%Z) as Hin.
  { replace n with (Z.of_nat (Z.to_nat n)) by lia.
    assert (Z.to_nat n < 16)%nat as Hlt by lia.
    revert Hlt. generalize (Z.to_nat n). intros m Hm.
    do 16 (destruct m as [|m]; [repeat constructor|]). lia. }
  repeat (apply elem_of_cons in Hin as [->|Hin]; [reflexivity|]).
  by apply elem_of_nil in Hin.
Qed.

Lemma hex_of_bytes_hex (bs : list Z) :
  str_forall is_hex (hex_of_bytes bs) = true.
Proof.
  induction bs as [|b bs IH]; simpl; [done|].
  rewrite !hex_digit_is_hex, IH; [done|..]; by apply Z.mod_pos_bound.
Qed.

Lemma str_forall_take (p : ascii → bool) (n : nat) (s : string) :
  str_forall p s = true → str_forall p (str_take n s) = true.
Proof.
  revert s. induction n as [|n IH]; intros [|a s]; simpl; try done.
  intros [Ha Hs]%andb_true_iff. by rewrite Ha, IH.
Qed.

(** X18: [generate_id] always returns twelve lower-case hexadecimal
    characters. *)
Theorem generate_id_hex (u : string) :
  String.length (generate_id u) = 12%nat
  ∧ str_forall is_hex (generate_id u) = true.
Proof.
  unfold generate_id, md5_hexdigest. split.
  - by rewrite str_take_length, hex_of_bytes_length, md5_digest_length.
  - apply str_forall_take, hex_of_bytes_hex.
Qed.

(** * Properties of the fetchers *)

Lemma truthy_Some (o : option string) :
  truthy o = true → ∃ s, o = Some s ∧ s ≠ "".
Proof.
  destruct o as [s|]; simpl; [|done].
  case_decide; [done|]. intros _. by exists s.
Qed.

Lemma detect_company_loop_elem (tl : string)
    (table : list (string * list string)) :
  detect_company_loop tl table ∈ "other" :: table.*1.
Proof.
  induction table as [|[c kws] table IH]; simpl; [left|].
  destruct (any_in kws tl); [right; left|].
  apply elem_of_cons in IH as [->|IH]; [left | by do 2 right].
Qed.

Section FetcherFacts.
Variable lower : string → string.
Variable stamp : nat → string.

Lemma build_item_shape (detail now_iso : string) (a : article) :
  valid_article a = true →
  fetched_shape (build_item lower detail now_iso a).
Proof.
  unfold valid_article. intros [Ht Hu]%andb_true_iff.
  apply truthy_Some in Ht as (t & Ht & Htne), Hu as (u & Hu & Hune).
  unfold fetched_shape, build_item. cbv zeta. rewrite Ht, Hu.
  cbn [title url id source item_engagement publishedAt priorityScore
       summary tags importance company].
  change (default "" (Some t)) with t. change (default "" (Some u)) with u.
  repeat split; try done.
  - rewrite str_take_length. lia.
  - unfold extract_tags. cbv zeta. rewrite length_take. lia.
  - unfold calculate_importance. cbv zeta.
    repeat destruct (any_in _ _); repeat constructor.
  - apply detect_company_loop_elem.
Qed.

Lemma gnews_articles_spec (articles : list item) (arts : list article) :
  gnews_articles lower stamp articles arts
  = articles
    ++ imap (λ n, nth_item lower stamp (length articles + n))
         (filter (λ a, valid_article a = true) arts).
Proof.
  revert articles. induction arts as [|a arts IH]; intros articles.
  - simpl. by rewrite app_nil_r.
  - simpl. rewrite filter_cons. fold (valid_article a).
    destruct (valid_article a) eqn:Hv.
    + rewrite decide_True by done. rewrite IH, imap_cons, <- app_assoc.
      rewrite Nat.add_0_r. do 2 f_equal. apply imap_ext. intros i x _. simpl.
      rewrite length_app. simpl. f_equal. lia.
    + rewrite decide_False by done. apply IH.
Qed.

Lemma newsapi_articles_spec (articles : list item) (arts : list article) :
  (∀ a, a ∈ arts → valid_article a = true → is_Some (art_source a)) →
  newsapi_articles lower stamp articles arts
  = articles
    ++ imap (λ n, nth_item lower stamp (length articles + n))
         (filter (λ a, valid_article a = true) arts).
Proof.
  revert articles. induction arts as [|a arts IH]; intros articles Hsrc.
  - simpl. by rewrite app_nil_r.
  - simpl. rewrite filter_cons. fold (valid_article a).
    assert (∀ a', a' ∈ arts → valid_article a' = true → is_Some (art_source a'))
      as Hrest by (intros a' Ha'; apply Hsrc; by right).
    destruct (valid_article a) eqn:Hv.
    + destruct (Hsrc a) as [src Hs]; [left | done |].
      rewrite decide_True by done. rewrite Hs, IH, imap_cons by done.
      rewrite <- app_assoc, Nat.add_0_r. f_equal. simpl. f_equal.
      * unfold nth_item, source_detail. by rewrite Hs.
      * apply imap_ext. intros i x _. simpl.
        rewrite length_app. simpl. f_equal. lia.
    + rewrite decide_False by done. by apply IH.
Qed.

Lemma newsapi_query_ok_articles (articles : list item) (r : option response) :
  newsapi_query lower stamp articles r
  = newsapi_articles lower stamp articles (ok_articles r).
Proof.
  unfold newsapi_query, ok_articles. destruct r as [data|]; [|done].
  by case_decide.
Qed.

Lemma newsapi_fold_spec (get : string → option response)
    (kws : list string) (articles : list item) :
  (∀ kw a, kw ∈ kws → a ∈ ok_articles (get kw) →
           valid_article a = true → is_Some (art_source a)) →
  foldl (λ acc kw, newsapi_query lower stamp acc (get kw)) articles kws
  = articles
    ++ imap (λ n, nth_item lower stamp (length articles + n))
         (filter (λ a, valid_article a = true)
            (kws ≫= λ kw, ok_articles (get kw))).
Proof.
  revert articles. induction kws as [|kw kws IH]; intros articles Hsrc.
  - simpl. by rewrite app_nil_r.
  - simpl. rewrite newsapi_query_ok_articles, newsapi_articles_spec
      by (intros a; apply Hsrc; left).
    rewrite IH by (intros kw' a Hkw; apply Hsrc; by right).
    rewrite <- app_assoc. f_equal.
    rewrite (filter_app _ (ok_articles (get kw))), imap_app. f_equal.
    apply imap_ext. intros i x _. simpl.
    rewrite length_app, length_imap. f_equal. lia.
Qed.

(** X19: [fetch_gnews] returns one item per article that has a title and
    a url, in the order of the response, the [n]-th of them stamped with
    the [n]-th clock reading; a failed request returns nothing. *)
Theorem fetch_gnews_spec (r : option response) :
  fetch_gnews lower stamp r
  = imap (nth_item lower stamp)
      (filter (λ a, valid_article a = true)
         (default [] (r ≫= resp_articles))).
Proof.
  destruct r as [data|]; [|done]. simpl.
  rewrite gnews_articles_spec. simpl. by apply imap_ext.
Qed.

(** X20: when every article with a title and a url also has a [source],
    [fetch_newsapi] returns one item per such article of the responses
    whose status is ["ok"], query after query in keyword order; failed
    queries and other statuses contribute nothing, and an article
    returned by two queries is returned twice. *)
Theorem fetch_newsapi_spec (get : string → option response) :
  (∀ kw a, kw ∈ newsapi_keywords → a ∈ ok_articles (get kw) →
           valid_article a = true → is_Some (art_source a)) →
  fetch_newsapi lower stamp get
  = imap (nth_item lower stamp)
      (filter (λ a, valid_article a = true)
         (newsapi_keywords ≫= λ kw, ok_articles (get kw))).
Proof.
  intros Hsrc. unfold fetch_newsapi.
  rewrite newsapi_fold_spec by done. simpl. by apply imap_ext.
Qed.

(** X21: in a NewsAPI response an article with a title and a url but no
    [source] key ends the processing of that response: the article and
    everything after it are lost, what was appended before is kept. *)
Theorem newsapi_articles_cut (articles : list item) (pre post : list article)
    (a : article) :
  valid_article a = true → art_source a = None →
  newsapi_articles lower stamp articles (pre ++ a :: post)
  = newsapi_articles lower stamp articles pre.
Proof.
  intros Hv Hs. revert articles.
  induction pre as [|b pre IH]; intros articles; simpl.
  - fold (valid_article a). by rewrite Hv, Hs.
  - destruct (truthy (art_title b) && truthy (art_url b)); [|apply IH].
    destruct (art_source b); [apply IH | done].
Qed.

Lemma newsapi_articles_shape (articles : list item) (arts : list article) :
  Forall fetched_shape articles →
  Forall fetched_shape (newsapi_articles lower stamp articles arts).
Proof.
  revert articles. induction arts as [|a arts IH]; intros articles Hacc;
    simpl; [done|].
  fold (valid_article a). destruct (valid_article a) eqn:Hv; [|by apply IH].
  destruct (art_source a); [|done].
  apply IH, Forall_app. split; [done|].
  constructor; [by apply build_item_shape | constructor].
Qed.

Lemma fetch_newsapi_shape (get : string → option response) :
  Forall fetched_shape (fetch_newsapi lower stamp get).
Proof.
  unfold fetch_newsapi.
  assert (∀ kws acc, Forall fetched_shape acc →
            Forall fetched_shape
              (foldl (λ acc kw, newsapi_query lower stamp acc (get kw))
                 acc kws)) as Hfold; [|by apply Hfold].
  induction kws as [|kw kws IH]; intros acc Hacc; simpl; [done|].
  apply IH. rewrite newsapi_query_ok_articles.
  by apply newsapi_articles_shape.
Qed.

Lemma fetch_gnews_shape (r : option response) :
  Forall fetched_shape (fetch_gnews lower stamp r).
Proof.
  destruct r as [data|]; [|constructor]. simpl.
  rewrite gnews_articles_spec. simpl.
  apply Forall_forall. intros x Hx.
  apply elem_of_lookup_imap in Hx as (i & a & -> & Ha).
  apply build_item_shape.
  apply list_elem_of_lookup_2, list_elem_of_filter in Ha. tauto.
Qed.

(** X22: every item returned by either fetcher has a non-empty title and
    url, the id generated from its url, source ["news"], zero engagement,
    a [publishedAt], no score yet, a summary of at most 300 characters, at
    most five tags, a known importance level and a known company. *)
Theorem fetchers_shape (get : string → option response)
    (r : option response) :
  Forall fetched_shape (fetch_newsapi lower stamp get)
  ∧ Forall fetched_shape (fetch_gnews lower stamp r).
Proof. split; [apply fetch_newsapi_shape | apply fetch_gnews_shape]. Qed.
End FetcherFacts.

(** * The scores of fetched items *)

Lemma py_round_half (n : Z) :
  py_round (IZR n + 1 / 2) = if Z.even n then n else (n + 1)%Z.
Proof.
  unfold py_round. cbv zeta.
  assert (Int_part (IZR n + 1 / 2) = n) as Hn
    by (symmetry; apply Int_part_spec; lra).
  assert (frac_part (IZR n + 1 / 2) = (1 / 2)%R) as ->
    by (unfold frac_part; rewrite Hn; lra).
  rewrite Hn. repeat destruct (Rlt_dec _ _); try lra. done.
Qed.

Lemma fetched_shape_components (it : item) :
  fetched_shape it →
  eng_score it = 10%R ∧ src_score it = 30%R
  ∧ (0 <= IZR (bonus it) <= 20)%R.
Proof.
  intros (_ & _ & _ & Hs & He & _). split; [|split].
  - unfold eng_score, eng_total. by rewrite He.
  - unfold src_score. rewrite Hs. simpl.
    replace (src_weights !! "news") with (Some 1%R) by reflexivity.
    simpl. lra.
  - apply bonus_range.
Qed.

Section FetchedScores.
Variable lower : string → string.
Variable fromisoformat : string → option datetime.

Lemma fetched_score_ge_10 (now : Z) (it : item) :
  fetched_shape it → (10 ≤ calc_score fromisoformat now it)%Z.
Proof.
  intros Hshape.
  destruct (fetched_shape_components it Hshape) as (He & Hs & Hb).
  pose proof (time_score_nonneg fromisoformat now it) as Ht.
  unfold calc_score. rewrite He, Hs.
  etrans; [|apply (py_round_mono (IZR 9 + 1 / 2)); lra].
  by rewrite py_round_half.
Qed.

(** X23: an item as the fetchers build it scores at least 10, and at most
    42 unless its timestamp lies in the future. *)
Theorem fetched_score_range (now : Z) (it : item) :
  fetched_shape it →
  (10 ≤ calc_score fromisoformat now it)%Z
  ∧ ((∀ t, fromisoformat (pub_string it) = Some (Aware t) → (t ≤ now)%Z) →
     (calc_score fromisoformat now it ≤ 42)%Z).
Proof.
  intros Hshape. split; [by apply fetched_score_ge_10|].
  intros Hpast.
  destruct (fetched_shape_components it Hshape) as (He & Hs & Hb).
  pose proof (time_score_le_100 fromisoformat now it Hpast).
  unfold calc_score. rewrite He, Hs.
  etrans; [apply (py_round_mono _ (IZR 42 + 1 / 2)); lra|].
  by rewrite py_round_half.
Qed.

(** X24: in the snapshot of a whole run every item has a non-empty title
    and url, the id generated from its url, and a score of at least 10. *)
Theorem collect_news_scored (clock : nat → Z)
    (stamp_newsapi stamp_gnews : nat → string)
    (get : string → option response) (gnews : option response) :
  Forall (λ x, title x ≠ "" ∧ url x ≠ "" ∧ id x = generate_id (url x)
               ∧ ∃ s, priorityScore x = Some s ∧ (10 ≤ s)%Z)
    (news (collect lower fromisoformat clock stamp_newsapi stamp_gnews
             get gnews)).
Proof.
  apply Forall_forall. intros x Hx. unfold collect in Hx.
  apply main_news_elem, score_loop_elem in Hx as (it & k & Hit & ->).
  apply (sublist_subseteq _ _ (dedup_loop_sublist ∅ _)) in Hit.
  assert (fetched_shape it) as Hshape.
  { apply elem_of_app in Hit as [Hit|Hit].
    - pose proof (fetch_newsapi_shape lower stamp_newsapi get) as Hall.
      rewrite Forall_forall in Hall. by apply Hall.
    - pose proof (fetch_gnews_shape lower stamp_gnews gnews) as Hall.
      rewrite Forall_forall in Hall. by apply Hall. }
  pose proof (fetched_score_ge_10 (clock k) it Hshape) as Hscore.
  destruct Hshape as (Ht & Hu & Hid & _). simpl.
  split; [done|]. split; [done|]. split; [done|]. by eexists.
Qed.
End FetchedScores.

(** * The further properties on concrete inputs *)

Example fetch_newsapi_example :
  title <$> fetch_newsapi ascii_lower example_stamp example_get
  = ["Tesla launches FSD in California"; "Zoox robotaxi test"]
  ∧ company <$> fetch_newsapi ascii_lower example_stamp example_get
    = ["tesla"; "zoox"]
  ∧ publishedAt <$> fetch_newsapi ascii_lower example_stamp example_get
    = [Some "2024-01-01T00:00:00Z"; Some "2024-01-01T00:00:00+00:00"].
Proof. by vm_compute. Qed.

(** The sourceless article ends the NewsAPI response, GNews reads it with
    the detail ["Unknown"]. *)
Example sourceless_article_example :
  url <$> newsapi_articles ascii_lower example_stamp []
            [article_A; article_sourceless; article_B]
  = ["u1"]
  ∧ (λ it, (url it, sourceDetail it))
    <$> gnews_articles ascii_lower example_stamp []
          [article_A; article_sourceless; article_B]
    = [("u1", "Wire"); ("u3", "Unknown"); ("u4", "Unknown")].
Proof. by vm_compute. Qed.

Lemma extract_tags_member_witness :
  patterns !! 6%nat = Some ("USA", ["us"; "america"; "california"])
  ∧ ("USA" ∈ extract_tags ascii_lower "Tesla launches FSD in California"
     ↔ AnyIn ["us"; "america"; "california"]
         (ascii_lower "Tesla launches FSD in California")
       ∧ (length (matching (ascii_lower "Tesla launches FSD in California")
                    (take 6 patterns)) < 5)%nat).
Proof.
  split; [reflexivity|].
  apply (extract_tags_member ascii_lower "Tesla launches FSD in California"
           6 "USA" ["us"; "america"; "california"]).
  reflexivity.
Defined.

Lemma eng_score_monotone_positive_witness :
  (0 < eng_total liked_item)%Z
  ∧ (eng_total liked_item
     ≤ eng_total (with_engagement 1000 0 0 liked_item))%Z
  ∧ (eng_score liked_item
     <= eng_score (with_engagement 1000 0 0 liked_item))%R.
Proof.
  assert (0 < eng_total liked_item)%Z as H1 by (vm_compute; reflexivity).
  assert (eng_total liked_item
          ≤ eng_total (with_engagement 1000 0 0 liked_item))%Z as H2
    by (vm_compute; discriminate).
  split; [exact H1|]. split; [exact H2|].
  exact (eng_score_monotone_positive liked_item
           (with_engagement 1000 0 0 liked_item) H1 H2).
Defined.

Lemma calc_score_small_engagement_dip_witness :
  (eng_total undated_item ≤ 0)%Z
  ∧ (0 < eng_total (with_engagement 1 0 0 undated_item) ≤ 12)%Z
  ∧ (calc_score iso_parse new_year_2024 (with_engagement 1 0 0 undated_item)
     < calc_score iso_parse new_year_2024 undated_item)%Z.
Proof.
  assert (eng_total undated_item ≤ 0)%Z as H0 by (vm_compute; discriminate).
  assert (0 < eng_total (with_engagement 1 0 0 undated_item) ≤ 12)%Z as H1
    by (split; vm_compute; [reflexivity | discriminate]).
  split; [exact H0|]. split; [exact H1|].
  exact (calc_score_small_engagement_dip iso_parse new_year_2024
           undated_item (with_engagement 1 0 0 undated_item)
           eq_refl eq_refl eq_refl H0 H1).
Defined.

Lemma main_keeps_every_url_witness :
  (length (dedup ([item_A] ++ [item_B])) ≤ 100)%nat
  ∧ "u1" ∈ url <$> [item_A] ++ [item_B]
  ∧ "u1" ∈ url <$> news (main iso_parse (λ _, new_year_2024)
                           [item_A] [item_B]).
Proof.
  assert (length (dedup ([item_A] ++ [item_B])) ≤ 100)%nat as Hlen
    by (vm_compute; lia).
  assert ("u1" ∈ url <$> [item_A] ++ [item_B]) as Hin by (simpl; left).
  split; [exact Hlen|]. split; [exact Hin|].
  exact (main_keeps_every_url iso_parse (λ _, new_year_2024)
           [item_A] [item_B] "u1" Hlen Hin).
Defined.

Lemma fetch_newsapi_spec_witness :
  (∀ kw a, kw ∈ newsapi_keywords → a ∈ ok_articles (example_get kw) →
           valid_article a = true → is_Some (art_source a))
  ∧ fetch_newsapi ascii_lower example_stamp example_get
    = imap (nth_item ascii_lower example_stamp)
        (filter (λ a, valid_article a = true)
           (newsapi_keywords ≫= λ kw, ok_articles (example_get kw))).
Proof.
  assert (∀ kw a, kw ∈ newsapi_keywords → a ∈ ok_articles (example_get kw) →
                  valid_article a = true → is_Some (art_source a)) as Hsrc.
  { intros kw a Hkw Ha Hv. unfold example_get, ok_articles in Ha.
    destruct (decide (kw = "robotaxi")); [|by apply elem_of_nil in Ha].
    simpl in Ha.
    repeat (apply elem_of_cons in Ha as [->|Ha]; [by eexists|]).
    by apply elem_of_nil in Ha. }
  split; [exact Hsrc|].
  exact (fetch_newsapi_spec ascii_lower example_stamp example_get Hsrc).
Defined.

Lemma newsapi_articles_cut_witness :
  valid_article article_sourceless = true
  ∧ art_source article_sourceless = None
  ∧ newsapi_articles ascii_lower example_stamp []
      ([article_A] ++ article_sourceless :: [article_B])
    = newsapi_articles ascii_lower example_stamp [] [article_A].
Proof.
  split; [reflexivity|]. split; [reflexivity|].
  exact (newsapi_articles_cut ascii_lower example_stamp [] [article_A]
           [article_B] article_sourceless eq_refl eq_refl).
Defined.

Lemma fetched_score_range_witness :
  fetched_shape (nth_item ascii_lower example_stamp 0 article_A)
  ∧ (10 ≤ calc_score iso_parse new_year_2024
            (nth_item ascii_lower example_stamp 0 article_A))%Z.
Proof.
  assert (fetched_shape (nth_item ascii_lower example_stamp 0 article_A))
    as Hshape.
  { unfold fetched_shape.
    repeat split; try done; try (vm_compute; lia);
      try (vm_compute; repeat constructor). }
  split; [exact Hshape|].
  exact (proj1 (fetched_score_range iso_parse new_year_2024
                  (nth_item ascii_lower example_stamp 0 article_A) Hshape)).
Defined.

(** * The timestamp string handed to the parser *)

Lemma str_in_cons (kw : string) (a : ascii) (s : string) :
  str_in kw s = true → str_in kw (String a s) = true.
Proof. intros H. simpl. rewrite H. apply orb_true_r. Qed.

Lemma str_in_drop (kw : string) (n : nat) (s : string) :
  str_in kw (str_drop n s) = true → str_in kw s = true.
Proof.
  revert s. induction n as [|n IH]; intros s; [done|].
  destruct s as [|a s]; [done|]. simpl. intros H.
  by apply str_in_cons, IH.
Qed.

Lemma str_in_drop_le (kw : string) (m n : nat) (s : string) :
  (m ≤ n)%nat →
  str_in kw (str_drop n s) = true → str_in kw (str_drop m s) = true.
Proof.
  revert n s. induction m as [|m IH]; intros n s Hle.
  - apply str_in_drop.
  - destruct n as [|n]; [lia|]. destruct s as [|a s]; [done|].
    simpl. apply IH. lia.
Qed.

Lemma str_in_drop_app (kw p r : string) (n k : nat) :
  str_in kw (str_drop n r) = true → (k ≤ n + String.length p)%nat →
  str_in kw (str_drop k (p +:+ r)) = true.
Proof.
  intros Hr. revert k. induction p as [|a p IH]; intros k Hk.
  - rewrite append_nil. simpl in Hk. apply (str_in_drop_le kw k n); [lia|done].
  - rewrite append_cons. destruct k as [|k].
    + simpl str_drop. apply str_in_cons. apply (IH 0%nat). lia.
    + simpl str_drop. apply IH. simpl in Hk. lia.
Qed.

Lemma str_in_char_cons (c a : ascii) (s : string) :
  str_in (String c "") (String a s)
  = (if decide (c = a) then true else str_in (String c "") s).
Proof. simpl. by destruct (decide (c = a)). Qed.

Lemma replace_Z_plus (n : nat) (s : string) :
  str_in "Z" (str_drop n s) = true →
  str_in "+" (str_drop n (str_replace_char "Z" "+00:00" s)) = true.
Proof.
  revert n. induction s as [|a s IH]; intros n H.
  - by destruct n.
  - cbn [str_replace_char]. destruct (decide (a = "Z"%char)) as [->|Hne].
    + destruct n as [|n]; [reflexivity|].
      apply (str_in_drop_app _ _ _ n); [by apply IH | simpl; lia].
    + destruct n as [|n]; [|by apply IH].
      simpl str_drop in *. rewrite str_in_char_cons in H.
      rewrite decide_False in H by done.
      apply str_in_cons. by apply (IH 0%nat).
Qed.

Lemma replace_Z_absent (s : string) :
  str_in "Z" s = false → str_replace_char "Z" "+00:00" s = s.
Proof.
  induction s as [|a s IH]; [done|].
  rewrite str_in_char_cons. cbn [str_replace_char].
  destruct (decide ("Z"%char = a)) as [<-|Hne]; [done|].
  intros H. rewrite decide_False by done. by rewrite IH.
Qed.

(** X25: a timestamp with a ["Z"] after its tenth character reaches the
    parser with every ["Z"] replaced by ["+00:00"] and nothing appended. *)
Theorem pub_string_zulu (it : item) (pub : string) :
  publishedAt it = Some pub →
  str_in "Z" (str_drop 10 pub) = true →
  pub_string it = str_replace_char "Z" "+00:00" pub.
Proof.
  intros Hp Hz. unfold pub_string. rewrite Hp. simpl default.
  by rewrite (replace_Z_plus 10 pub Hz).
Qed.

(** X26: a timestamp without ["Z"] reaches the parser unchanged when a
    sign occurs after its tenth character, and with ["+00:00"] appended
    otherwise. *)
Theorem pub_string_offset (it : item) (pub : string) :
  publishedAt it = Some pub →
  str_in "Z" pub = false →
  pub_string it
  = if str_in "+" (str_drop 10 pub) || str_in "-" (str_drop 10 pub)
    then pub else pub +:+ "+00:00".
Proof.
  intros Hp Hz. unfold pub_string. rewrite Hp. simpl default.
  rewrite (replace_Z_absent pub Hz).
  by destruct (str_in "+" _), (str_in "-" _).
Qed.

Lemma pub_string_zulu_witness :
  publishedAt future_item = Some "2024-02-11T16:00:00Z"
  ∧ str_in "Z" (str_drop 10 "2024-02-11T16:00:00Z") = true
  ∧ pub_string future_item
    = str_replace_char "Z" "+00:00" "2024-02-11T16:00:00Z".
Proof.
  split; [reflexivity|]. split; [reflexivity|].
  exact (pub_string_zulu future_item "2024-02-11T16:00:00Z"
           eq_refl eq_refl).
Defined.

Lemma pub_string_offset_witness :
  pub_string (fetched "u" "t" "2024-01-01T09:00:00-05:00" "low")
  = "2024-01-01T09:00:00-05:00"
  ∧ pub_string (fetched "u" "t" "2024-01-01" "low") = "2024-01-01+00:00".
Proof.
  split.
  - exact (pub_string_offset
             (fetched "u" "t" "2024-01-01T09:00:00-05:00" "low")
             "2024-01-01T09:00:00-05:00" eq_refl eq_refl).
  - exact (pub_string_offset (fetched "u" "t" "2024-01-01" "low")
             "2024-01-01" eq_refl eq_refl).
Defined.

Lemma main_provenance_witness :
  ∃ x : item,
    x ∈ news (main iso_parse (λ _, new_year_2024) [item_A] [item_B])
    ∧ ∃ it,
        take 1 (filter (λ i, url i = url x) ([item_A] ++ [item_B])) = [it]
        ∧ x = set_priorityScore (calc_score iso_parse new_year_2024 it) it.
Proof.
  set (x := set_priorityScore (calc_score iso_parse new_year_2024 item_A)
              item_A).
  assert (x ∈ news (main iso_parse (λ _, new_year_2024) [item_A] [item_B]))
    as Hx.
  { replace (news (main iso_parse (λ _, new_year_2024) [item_A] [item_B]))
      with [x] by reflexivity.
    left. }
  exists x. split; [exact Hx|].
  destruct (main_provenance iso_parse (λ _, new_year_2024)
              [item_A] [item_B] x Hx) as (it & k & Hfirst & Hscore).
  exists it. split; [exact Hfirst | exact Hscore].
Defined.

(** The second parser instance on the forms it covers. *)
Example fromisoformat_py_forms :
  fromisoformat_py "2023-12-01+00:00" = Some (Naive 1701388800000000)
  ∧ fromisoformat_py "2024-01-01" = Some (Naive new_year_2024)
  ∧ fromisoformat_py "2024-01-01 10:00:05"
    = Some (Naive (new_year_2024 + 36005 * 1000000))
  ∧ fromisoformat_py "2024-01-01T10:00-05:00"
    = Some (Aware (new_year_2024 + 15 * 3600 * 1000000))
  ∧ fromisoformat_py "2023-12-31T19:00:00+00:00"
    = Some (Aware (new_year_2024 - 5 * 3600 * 1000000))
  ∧ fromisoformat_py "+00:00" = None.
Proof. by vm_compute. Qed.
